(** * bping: the concurrent ping sweep of [src/bping.py]

    A shallow embedding of the sweep engine of [bping.py]: the string paths
    of [ipaddress.ip_network] (IPv4, then IPv6, as in Python 3.11) and
    [hosts()] that the sweep relies on, the probe [ping], the GUI worker
    [ScanThread.run] / [ScanThread.stop] with its thread pool, the window
    handlers of [IPScannerGUI] ([create_ip_grid], [start_scan],
    [stop_scan], [update_progress], [update_ip_status], [scan_complete],
    with the status label) and the batch sweep [scan_network].

    Addresses are integers ([Z]) of 32 or 128 bits; their texts [str(ip)]
    are [str_ipv4] and [str_ipv6] (with the scope id of a single-address
    IPv6 range).  [ThreadPoolExecutor(max_workers)] raises [ValueError] for
    [max_workers <= 0]; otherwise the pool size only changes the completion
    order, which is a parameter.  Elapsed times ([time.time()]) and the
    [print] side effects are not modelled. *)

From Stdlib Require Import ZArith List String Ascii Bool Lia Permutation Sorted Floats.
Import ListNotations.
Open Scope Z_scope.

(** ** Python results *)

(** The exceptions that reach a caller in the code paths modelled here. *)
Inductive pyexc :=
| ValueError
| BaseExceptionRaised (name : string).

Inductive pyresult (A : Type) :=
| Ret (a : A)
| Raise (e : pyexc).
Arguments Ret {A} a.
Arguments Raise {A} e.

(** ** Text helpers (ASCII strings) *)

(** [s.split(c)] for a one-character separator: always [count(c) + 1] pieces. *)
Fixpoint split_on (c : ascii) (s : string) : list string :=
  match s with
  | EmptyString => [EmptyString]
  | String x rest =>
      if Ascii.eqb x c then EmptyString :: split_on c rest
      else match split_on c rest with
           | h :: t => String x h :: t
           | [] => [String x EmptyString]
           end
  end.

(** [ch.isascii() and ch.isdigit()] *)
Definition is_digit (x : ascii) : bool :=
  let n := nat_of_ascii x in (48 <=? n)%nat && (n <=? 57)%nat.

Fixpoint all_digits (s : string) : bool :=
  match s with
  | EmptyString => true
  | String x rest => is_digit x && all_digits rest
  end.

(** [s.isascii() and s.isdigit()]: an empty string is not a digit string. *)
Definition isdigit (s : string) : bool :=
  match s with EmptyString => false | _ => all_digits s end.

(** [int(s, 10)] on a digit string. *)
Fixpoint decimal_acc (acc : Z) (s : string) : Z :=
  match s with
  | EmptyString => acc
  | String x rest => decimal_acc (acc * 10 + Z.of_nat (nat_of_ascii x - 48)) rest
  end.
Definition int_of_string (s : string) : Z := decimal_acc 0 s.

(** [ch.isspace()] restricted to ASCII: tab, LF, VT, FF, CR, the separators
    0x1c..0x1f and space. *)
Definition is_space (x : ascii) : bool :=
  let n := nat_of_ascii x in
  ((9 <=? n)%nat && (n <=? 13)%nat) || ((28 <=? n)%nat && (n <=? 32)%nat).

Fixpoint lstrip (s : string) : string :=
  match s with
  | String x rest => if is_space x then lstrip rest else s
  | EmptyString => EmptyString
  end.

Fixpoint rev_string (s : string) (acc : string) : string :=
  match s with
  | EmptyString => acc
  | String x rest => rev_string rest (String x acc)
  end.

(** [s.strip()] *)
Definition strip (s : string) : string :=
  rev_string (lstrip (rev_string (lstrip s) EmptyString)) EmptyString.

(** [c not in s] *)
Fixpoint no_char (c : ascii) (s : string) : bool :=
  match s with
  | EmptyString => true
  | String x rest => negb (Ascii.eqb x c) && no_char c rest
  end.

(** ** [ipaddress.ip_network] ([strict=True])

    [ip_network] tries [IPv4Network], then [IPv6Network].  A [None] stands
    for the [ValueError] it raises (or a subclass: [AddressValueError],
    [NetmaskValueError]).  The argument is always a string here (a line
    edit, the command line), so only the string paths of the constructors
    are modelled. *)

(** *** IPv4 *)

Definition ALL_ONES : Z := 2 ^ 32 - 1.

(** [_BaseV4._parse_octet] *)
Definition parse_octet (octet_str : string) : option Z :=
  match octet_str with
  | EmptyString => None
  | String c0 _ =>
      if negb (all_digits octet_str) then None
      else if (3 <? String.length octet_str)%nat then None
      else if negb (String.eqb octet_str "0") && Ascii.eqb c0 "0"%char then None
      else let v := int_of_string octet_str in
           if 255 <? v then None else Some v
  end.

(** [int.from_bytes(map(_parse_octet, octets), 'big')] *)
Fixpoint octets_big (acc : Z) (octets : list string) : option Z :=
  match octets with
  | [] => Some acc
  | o :: rest =>
      match parse_octet o with
      | None => None
      | Some v => octets_big (acc * 256 + v) rest
      end
  end.

(** [_BaseV4._ip_int_from_string] *)
Definition ip_int_from_string (ip_str : string) : option Z :=
  match ip_str with
  | EmptyString => None
  | _ =>
      let octets := split_on "."%char ip_str in
      if negb (List.length octets =? 4)%nat then None
      else octets_big 0 octets
  end.

(** [int.bit_length()] for a non-negative integer *)
Definition bit_length (x : Z) : Z := if x =? 0 then 0 else Z.log2 x + 1.

(** [ipaddress._count_righthand_zero_bits] *)
Definition count_righthand_zero_bits (number bits : Z) : Z :=
  if number =? 0 then bits
  else Z.min bits (bit_length (Z.land (Z.lnot number) (number - 1))).

(** [_IPAddressBase._prefix_from_ip_int] (IPv4) *)
Definition prefix_from_ip_int (ip_int : Z) : option Z :=
  let trailing_zeroes := count_righthand_zero_bits ip_int 32 in
  let prefixlen := 32 - trailing_zeroes in
  let leading_ones := Z.shiftr ip_int trailing_zeroes in
  let all_ones := Z.shiftl 1 prefixlen - 1 in
  if leading_ones =? all_ones then Some prefixlen else None.

(** [_IPAddressBase._prefix_from_prefix_string] of the class whose
    [_max_prefixlen] is [max_prefixlen] *)
Definition prefix_from_prefix_string (max_prefixlen : Z) (s : string) : option Z :=
  if negb (isdigit s) then None
  else let p := int_of_string s in
       if (0 <=? p) && (p <=? max_prefixlen) then Some p else None.

(** [_IPAddressBase._prefix_from_ip_string]: a netmask, else a hostmask *)
Definition prefix_from_ip_string (s : string) : option Z :=
  match ip_int_from_string s with
  | None => None
  | Some ip_int =>
      match prefix_from_ip_int ip_int with
      | Some p => Some p
      | None => prefix_from_ip_int (Z.lxor ip_int ALL_ONES)
      end
  end.

(** [_BaseV4._make_netmask] on a string argument *)
Definition make_netmask (arg : string) : option Z :=
  match prefix_from_prefix_string 32 arg with
  | Some p => Some p
  | None => prefix_from_ip_string arg
  end.

(** [_BaseV4._ip_int_from_prefix] *)
Definition ip_int_from_prefix (prefixlen : Z) : Z :=
  Z.lxor ALL_ONES (Z.shiftr ALL_ONES prefixlen).

(** *** Networks *)

Inductive ip_version := IPv4 | IPv6.

(** [_max_prefixlen] *)
Definition max_prefixlen (v : ip_version) : Z :=
  match v with IPv4 => 32 | IPv6 => 128 end.

(** An [IPv4Network] or [IPv6Network]: the integer of [network_address],
    [prefixlen], and the scope id an IPv6 address text carries after a
    ['%'] ([None] for IPv4 and for an IPv6 text without one). *)
Record network := mk_net {
  version : ip_version;
  network_address : Z;
  prefixlen : Z;
  scope_id : option string
}.

(** An IPv4 network *)
Definition mk_network (address prefix : Z) : network := mk_net IPv4 address prefix None.

(** How a constructor call on a string ends: with a network, with an
    [AddressValueError] or [NetmaskValueError] (which [ip_network] catches
    to try the next version), or with the plain [ValueError]
    ["... has host bits set"] (which it lets through). *)
Inductive net_outcome :=
| NetOk (n : network)
| AddressOrNetmaskError
| HostBitsSet.

(** [IPv4Network(address, strict=True)]: [_split_addr_prefix] (at most one
    ['/']; no mask means [32]), [IPv4Address(addr)], [_make_netmask(mask)],
    then the strict check. *)
Definition ipv4_network (address : string) : net_outcome :=
  let parts := split_on "/"%char address in
  if (2 <? List.length parts)%nat then AddressOrNetmaskError else
  match parts with
  | [] => AddressOrNetmaskError
  | addr :: rest =>
      match ip_int_from_string addr with
      | None => AddressOrNetmaskError
      | Some packed =>
          let mask := match rest with [] => Some 32 | m :: _ => make_netmask m end in
          match mask with
          | None => AddressOrNetmaskError
          | Some p =>
              if Z.land packed (ip_int_from_prefix p) =? packed
              then NetOk (mk_network packed p) else HostBitsSet
          end
      end
  end.

(** *** IPv6 *)

Definition ALL_ONES6 : Z := 2 ^ 128 - 1.

(** [ch in _BaseV6._HEX_DIGITS], i.e. in ['0123456789abcdefABCDEF'] *)
Definition is_hex_digit (x : ascii) : bool :=
  let n := nat_of_ascii x in
  ((48 <=? n)%nat && (n <=? 57)%nat) || ((97 <=? n)%nat && (n <=? 102)%nat)
  || ((65 <=? n)%nat && (n <=? 70)%nat).

Fixpoint all_hex (s : string) : bool :=
  match s with
  | EmptyString => true
  | String x rest => is_hex_digit x && all_hex rest
  end.

(** The value of a hex digit *)
Definition hex_value (x : ascii) : Z :=
  let n := Z.of_nat (nat_of_ascii x) in
  if n <=? 57 then n - 48 else if n <=? 70 then n - 55 else n - 87.

(** [int(s, 16)] on a string of hex digits *)
Fixpoint hex_acc (acc : Z) (s : string) : Z :=
  match s with
  | EmptyString => acc
  | String x rest => hex_acc (acc * 16 + hex_value x) rest
  end.

(** [_BaseV6._parse_hextet]: the digit check, the length check, then
    [int(hextet_str, 16)], which raises on the empty string. *)
Definition parse_hextet (hextet_str : string) : option Z :=
  if negb (all_hex hextet_str) then None
  else if (4 <? String.length hextet_str)%nat then None
  else match hextet_str with
       | EmptyString => None
       | _ => Some (hex_acc 0 hextet_str)
       end.

(** ['%x' % n] for [n >= 0]: lower-case hex digits, without leading zero.
    The fuel [log2 n + 1] bounds the number of digits. *)
Definition hex_char (d : Z) : ascii :=
  ascii_of_nat (Z.to_nat (if d <? 10 then 48 + d else 87 + d)).

Fixpoint hex_digits (fuel : nat) (n : Z) (acc : string) : string :=
  match fuel with
  | O => acc
  | S f =>
      let acc' := String (hex_char (n mod 16)) acc in
      if n <? 16 then acc' else hex_digits f (n / 16) acc'
  end.
Definition hex_str (n : Z) : string := hex_digits (S (Z.to_nat (Z.log2 n))) n EmptyString.

(** [s.partition(c)]: the text before the first [c], and the text after it
    when there is one. *)
Fixpoint partition_char (c : ascii) (s : string) : string * option string :=
  match s with
  | EmptyString => (EmptyString, None)
  | String x rest =>
      if Ascii.eqb x c then (EmptyString, Some rest)
      else let (before, after) := partition_char c rest in (String x before, after)
  end.

(** [_BaseV6._split_scope_id] *)
Definition split_scope_id (ip_str : string) : option (string * option string) :=
  match partition_char "%"%char ip_str with
  | (addr, None) => Some (addr, None)
  | (addr, Some scope_id) =>
      if String.eqb scope_id EmptyString || negb (no_char "%"%char scope_id) then None
      else Some (addr, Some scope_id)
  end.

(** The loop [for i in range(1, len(parts) - 1)] looking for the one empty
    part ['::'] leaves inside the address; [inner] is
    [parts[1:len(parts)-1]], [i] the index of its head.  [None] is the
    error of a second empty part. *)
Fixpoint find_skip (i : Z) (inner : list string) (skip_index : option Z) : option (option Z) :=
  match inner with
  | [] => Some skip_index
  | p :: rest =>
      if String.eqb p EmptyString then
        match skip_index with
        | Some _ => None
        | None => find_skip (i + 1) rest (Some i)
        end
      else find_skip (i + 1) rest skip_index
  end.

(** [ip_int <<= 16; ip_int |= cls._parse_hextet(parts[i])] over [parts] *)
Fixpoint shift_hextets (ip_int : Z) (parts : list string) : option Z :=
  match parts with
  | [] => Some ip_int
  | p :: rest =>
      match parse_hextet p with
      | None => None
      | Some h => shift_hextets (Z.lor (Z.shiftl ip_int 16) h) rest
      end
  end.

(** The sizes [(parts_hi, parts_lo, parts_skipped)] that
    [_BaseV6._ip_int_from_string] derives from the parts, [None] for the
    errors it raises on the way. *)
Definition hextet_layout (parts : list string) : option (Z * Z * Z) :=
  let n := Z.of_nat (List.length parts) in
  let first_empty := String.eqb (hd EmptyString parts) EmptyString in
  let last_empty := String.eqb (last parts EmptyString) EmptyString in
  match find_skip 1 (firstn (Z.to_nat (n - 2)) (tl parts)) None with
  | None => None
  | Some (Some skip_index) =>
      let parts_hi := if first_empty then skip_index - 1 else skip_index in
      let parts_lo := if last_empty then n - skip_index - 1 - 1 else n - skip_index - 1 in
      if first_empty && negb (parts_hi =? 0) then None
      else if last_empty && negb (parts_lo =? 0) then None
      else
        let parts_skipped := 8 - (parts_hi + parts_lo) in
        if parts_skipped <? 1 then None else Some (parts_hi, parts_lo, parts_skipped)
  | Some None =>
      if negb (n =? 8) then None
      else if first_empty then None
      else if last_empty then None
      else Some (n, 0, 0)
  end.

(** [_BaseV6._ip_int_from_string]: at least 3 parts; a dotted IPv4 last
    part is replaced by its two hextets (['%x'] of the high and low 16
    bits); at most 9 parts; then the hextets before and after the ['::']
    with the skipped zero hextets between them. *)
Definition ip6_int_from_string (ip_str : string) : option Z :=
  match ip_str with
  | EmptyString => None
  | _ =>
      let parts := split_on ":"%char ip_str in
      if (List.length parts <? 3)%nat then None else
      let parts :=
        let last_part := last parts EmptyString in
        if no_char "."%char last_part then Some parts
        else match ip_int_from_string last_part with
             | None => None
             | Some ipv4_int =>
                 Some (removelast parts ++
                       [hex_str (Z.land (Z.shiftr ipv4_int 16) 65535);
                        hex_str (Z.land ipv4_int 65535)])
             end in
      match parts with
      | None => None
      | Some parts =>
          let n := Z.of_nat (List.length parts) in
          if 9 <? n then None else
          match hextet_layout parts with
          | None => None
          | Some (parts_hi, parts_lo, parts_skipped) =>
              match shift_hextets 0 (firstn (Z.to_nat parts_hi) parts) with
              | None => None
              | Some ip_int =>
                  shift_hextets (Z.shiftl ip_int (16 * parts_skipped))
                    (skipn (Z.to_nat (n - parts_lo)) parts)
              end
          end
      end
  end.

(** [IPv6Address(addr_str)] on a string: the ['/'] check,
    [_split_scope_id], then [_ip_int_from_string]. *)
Definition ipv6_address (addr_str : string) : option (Z * option string) :=
  if negb (no_char "/"%char addr_str) then None else
  match split_scope_id addr_str with
  | None => None
  | Some (addr, scope_id) =>
      match ip6_int_from_string addr with
      | None => None
      | Some ip_int => Some (ip_int, scope_id)
      end
  end.

(** [_BaseV6._ip_int_from_prefix] *)
Definition ip_int_from_prefix6 (prefixlen : Z) : Z :=
  Z.lxor ALL_ONES6 (Z.shiftr ALL_ONES6 prefixlen).

(** [IPv6Network(address, strict=True)]: as for IPv4, but
    [_BaseV6._make_netmask] takes a prefix length only (no mask means
    [128]). *)
Definition ipv6_network (address : string) : net_outcome :=
  let parts := split_on "/"%char address in
  if (2 <? List.length parts)%nat then AddressOrNetmaskError else
  match parts with
  | [] => AddressOrNetmaskError
  | addr :: rest =>
      match ipv6_address addr with
      | None => AddressOrNetmaskError
      | Some (packed, scope) =>
          let mask :=
            match rest with [] => Some 128 | m :: _ => prefix_from_prefix_string 128 m end in
          match mask with
          | None => AddressOrNetmaskError
          | Some p =>
              if Z.land packed (ip_int_from_prefix6 p) =? packed
              then NetOk (mk_net IPv6 packed p scope) else HostBitsSet
          end
      end
  end.

(** [ipaddress.ip_network(address)] *)
Definition ip_network (address : string) : option network :=
  match ipv4_network address with
  | NetOk n => Some n
  | HostBitsSet => None
  | AddressOrNetmaskError =>
      match ipv6_network address with
      | NetOk n => Some n
      | _ => None
      end
  end.

(** [network.num_addresses] *)
Definition num_addresses (n : network) : Z :=
  2 ^ (max_prefixlen (version n) - prefixlen n).

(** [int(network.broadcast_address)] *)
Definition broadcast_address (n : network) : Z :=
  network_address n + num_addresses n - 1.

(** [range(lo, hi)] over integers *)
Definition Z_range (lo hi : Z) : list Z :=
  map (fun i => lo + Z.of_nat i) (seq 0 (Z.to_nat (hi - lo))).

(** [network.hosts()]: [__iter__] for a prefix one short of the maximum
    (/31, /127), the single address for a full prefix (/32, /128);
    otherwise [range(network + 1, broadcast)] for IPv4 and
    [range(network + 1, broadcast + 1)] for IPv6, whose [hosts()] leaves
    out the network address (Subnet-Router anycast) only. *)
Definition hosts (n : network) : list Z :=
  let maxp := max_prefixlen (version n) in
  if prefixlen n =? maxp - 1 then Z_range (network_address n) (broadcast_address n + 1)
  else if prefixlen n =? maxp then [network_address n]
  else match version n with
       | IPv4 => Z_range (network_address n + 1) (broadcast_address n)
       | IPv6 => Z_range (network_address n + 1) (broadcast_address n + 1)
       end.

(** ** [ping] *)

(** What [subprocess.run(["ping", "-n", "1", "-w", "500", str(ip)], ...,
    timeout=1)] does: the process exits with a return code, or the call
    raises [subprocess.TimeoutExpired], another [Exception] (an [OSError]
    such as [FileNotFoundError] or [PermissionError], ...), or a
    [BaseException] that is not an [Exception] ([KeyboardInterrupt],
    [SystemExit]). *)
Inductive run_outcome :=
| Completed (returncode : Z)
| TimeoutExpired
| RaisedException (name : string)
| RaisedBaseException (name : string).

(** [ping(ip)]; [subprocess_run] is the behaviour of the operating system's
    ping command for each argument.  The [print] in the generic handler is
    not modelled. *)
Definition ping (subprocess_run : string -> run_outcome) (ip : string) : pyresult bool :=
  match subprocess_run ip with
  | Completed rc => Ret (rc =? 0)
  | TimeoutExpired => Ret false
  | RaisedException _ => Ret false
  | RaisedBaseException e => Raise (BaseExceptionRaised e)
  end.

(** ** [ScanThread] *)

Record ScanThread := mk_ScanThread {
  st_network : string;
  st_max_workers : Z;
  st_is_running : bool
}.

(** [ScanThread.__init__] *)
Definition ScanThread_init (network : string) (max_workers : Z) : ScanThread :=
  mk_ScanThread network max_workers true.

(** [ScanThread.stop] *)
Definition stop (t : ScanThread) : ScanThread :=
  mk_ScanThread (st_network t) (st_max_workers t) false.

(** The signals the worker emits, in emission order:
    [update_progress(int, int)], [update_ip_status(str, bool)] and
    [scan_complete(list, float)] (the elapsed time is not modelled). *)
Inductive event :=
| UpdateProgress (current total : Z)
| UpdateIpStatus (ip : Z) (is_active : bool)
| ScanComplete (active_ips : list Z).

(** The value of [self.is_running] at the [i]-th read of the flag in [run]
    (reads [0 .. n-1] are the loop's checks, read [n] is the check after the
    loop), when [stop()] is called before the reads numbered in [calls].
    Only [stop] writes the flag after [__init__], so it is read as [True]
    until the first call. *)
Definition is_running_at (calls : list nat) (i : nat) : bool :=
  negb (existsb (fun t => Nat.leb t i) calls).

(** The local state of [run] inside the [for future in as_completed(...)]
    loop. *)
Record sweep := mk_sweep {
  active_ips : list Z;
  processed_ips : Z;
  emitted : list event
}.

(** The loop body, lines 68-82: read the flag, [break] if cleared, else
    fold the result of the completed future and emit the two signals.
    [order] is the completion order that [as_completed] yields; [probe ip]
    is [future.result()] for that address. *)
Fixpoint as_completed_loop (probe : Z -> bool) (total_ips : Z)
    (calls : list nat) (i : nat) (order : list Z) (s : sweep) : sweep :=
  match order with
  | [] => s
  | ip :: rest =>
      if negb (is_running_at calls i) then s
      else
        let is_active := probe ip in
        let active' := if is_active then active_ips s ++ [ip] else active_ips s in
        let processed' := processed_ips s + 1 in
        as_completed_loop probe total_ips calls (S i) rest
          (mk_sweep active' processed'
             (emitted s ++ [UpdateIpStatus ip is_active;
                            UpdateProgress processed' total_ips]))
  end.

(** What one run of the worker leaves behind: the signals emitted, the final
    values of [active_ips] and [processed_ips], and the addresses submitted
    to the [ThreadPoolExecutor] (leaving the [with] block waits for every
    submitted [ping] to finish, whether its result was read or not). *)
Record trace := mk_trace {
  tr_events : list event;
  tr_active : list Z;
  tr_processed : Z;
  tr_submitted : list Z
}.

Definition no_trace : trace := mk_trace [] [] 0 [].

(** The body of the [try] in [ScanThread.run] once the network parsed.
    [sched] gives the completion order of the submitted futures. *)
Definition run_network (probe : Z -> bool) (sched : list Z -> list Z)
    (calls : list nat) (network : network) : trace :=
  let total_ips := num_addresses network in
  let submitted := hosts network in
  let order := sched submitted in
  let s := as_completed_loop probe total_ips calls 0 order (mk_sweep [] 0 []) in
  let final_progress :=
    if is_running_at calls (List.length order)
    then [UpdateProgress total_ips total_ips] else [] in
  mk_trace (emitted s ++ final_progress ++ [ScanComplete (active_ips s)])
           (active_ips s) (processed_ips s) submitted.

(** [ScanThread.run] on a thread: a [ValueError] from [ip_network], or the
    one [ThreadPoolExecutor(max_workers=self.max_workers)] raises for
    [max_workers <= 0] (before anything is submitted), is caught by the
    [except Exception] handler, printed, and the thread ends without a
    signal.  The GUI creates the thread with the value of a spin box whose
    range is 1..200. *)
Definition ScanThread_run (probe : Z -> bool) (sched : list Z -> list Z)
    (calls : list nat) (t : ScanThread) : trace :=
  match ip_network (st_network t) with
  | None => no_trace
  | Some network =>
      if st_max_workers t <=? 0 then no_trace
      else run_network probe sched calls network
  end.

(** [ScanThread(network_text).run()], with the default [max_workers=50]. *)
Definition run (probe : Z -> bool) (sched : list Z -> list Z)
    (calls : list nat) (network_text : string) : trace :=
  ScanThread_run probe sched calls (ScanThread_init network_text 50).

(** ** [scan_network] (batch mode) *)

(** The loop [for i, future in enumerate(futures)]: [ip] is
    [list(network.hosts())[i]]. *)
Fixpoint batch_loop (hs : list Z) (i : nat) (results : list bool)
    (active : list Z) : list Z :=
  match results with
  | [] => active
  | r :: rest =>
      let ip := nth i hs 0 in
      batch_loop hs (S i) rest (if r then active ++ [ip] else active)
  end.

Record batch := mk_batch {
  b_result : pyresult (list Z);
  b_submitted : list Z
}.

(** [scan_network(network, max_workers)]: the [ValueError] of [ip_network]
    propagates to the caller, and so does the one of
    [ThreadPoolExecutor(max_workers=max_workers)] for [max_workers <= 0],
    before anything is submitted; otherwise every host is submitted and the
    futures are read in submission order. *)
Definition scan_network (probe : Z -> bool) (network_text : string) (max_workers : Z) : batch :=
  match ip_network network_text with
  | None => mk_batch (Raise ValueError) []
  | Some network =>
      if max_workers <=? 0 then mk_batch (Raise ValueError) []
      else
        let hs := hosts network in
        let futures := map probe hs in
        mk_batch (Ret (batch_loop hs 0 futures [])) hs
  end.

(** ** [IPScannerGUI.start_scan] *)

(** The buttons, the thread and the error box that [start_scan] changes;
    the grid, the progress bar and the status label are in [window]
    below. *)
Record gui := mk_gui {
  scan_button_enabled : bool;
  stop_button_enabled : bool;
  scan_thread : option ScanThread;
  error_dialog : bool
}.

(** [start_scan]: the text is stripped and validated with [ip_network];
    a [ValueError] opens the critical message box and nothing else. *)
Definition start_scan (text : string) (workers : Z) (g : gui) : gui :=
  let network := strip text in
  match ip_network network with
  | None => mk_gui (scan_button_enabled g) (stop_button_enabled g) (scan_thread g) true
  | Some _ => mk_gui false true (Some (ScanThread_init network workers)) (error_dialog g)
  end.

(** ** [str] of integers and of addresses *)

(** [str(n)] for [n >= 0]: the decimal digits, without leading zero.  The
    fuel [log2 n + 1] bounds the number of digits. *)
Fixpoint dec_digits (fuel : nat) (n : Z) (acc : string) : string :=
  match fuel with
  | O => acc
  | S f =>
      let acc' := String (ascii_of_nat (48 + Z.to_nat (n mod 10))) acc in
      if n <? 10 then acc' else dec_digits f (n / 10) acc'
  end.
Definition str_int (n : Z) : string := dec_digits (S (Z.to_nat (Z.log2 n))) n EmptyString.

(** [str(IPv4Address(x))], i.e. ['.'.join(map(str, x.to_bytes(4, 'big')))],
    for [0 <= x < 2^32]. *)
Definition str_ipv4 (x : Z) : string :=
  String.append (str_int ((x / 256 / 256 / 256) mod 256))
  (String.append "."
  (String.append (str_int ((x / 256 / 256) mod 256))
  (String.append "."
  (String.append (str_int ((x / 256) mod 256))
  (String.append "." (str_int (x mod 256))))))).

(** [sep.join(parts)] *)
Fixpoint join (sep : string) (parts : list string) : string :=
  match parts with
  | [] => EmptyString
  | [p] => p
  | p :: rest => String.append p (String.append sep (join sep rest))
  end.

(** [s.rsplit(c, 1)[0]]: the text before the last [c], or [s] without [c]. *)
Definition rsplit1_head (c : ascii) (s : string) : string :=
  match rev (split_on c s) with
  | _ :: ((_ :: _) as before) => join (String c EmptyString) (rev before)
  | _ => s
  end.

(** [str(IPv6Address(x))] without scope, for [0 <= x < 2^128]:
    [_string_from_ip_int] cuts ['%032x' % x] into eight hextets printed
    with ['%x'], [_compress_hextets] replaces the first longest run (of
    length at least 2) of ["0"] hextets by an empty one, and the hextets
    are joined with [':']. *)
Definition hextets_of (x : Z) : list string :=
  map (fun i => hex_str (Z.land (Z.shiftr x (16 * (7 - i))) 65535)) (Z_range 0 8).

(** The loop of [_compress_hextets]: [(best_doublecolon_start,
    best_doublecolon_len)] after the hextets from [index] on. *)
Fixpoint compress_scan (index : Z) (hextets : list string)
    (best_start best_len start len : Z) : Z * Z :=
  match hextets with
  | [] => (best_start, best_len)
  | h :: rest =>
      if String.eqb h "0" then
        let len' := len + 1 in
        let start' := if start =? -1 then index else start in
        if best_len <? len' then compress_scan (index + 1) rest start' len' start' len'
        else compress_scan (index + 1) rest best_start best_len start' len'
      else compress_scan (index + 1) rest best_start best_len (-1) 0
  end.

(** [_BaseV6._compress_hextets] *)
Definition compress_hextets (hextets : list string) : list string :=
  let (best_start, best_len) := compress_scan 0 hextets (-1) 0 (-1) 0 in
  if 1 <? best_len then
    let best_end := best_start + best_len in
    let h1 := if best_end =? Z.of_nat (List.length hextets) then hextets ++ [EmptyString]
              else hextets in
    let h2 := firstn (Z.to_nat best_start) h1 ++ [EmptyString] ++ skipn (Z.to_nat best_end) h1 in
    if best_start =? 0 then EmptyString :: h2 else h2
  else hextets.

Definition str_ipv6 (x : Z) : string := join ":" (compress_hextets (hextets_of x)).

(** [str(ip)] of an address of the given version: an IPv6 address with a
    scope id prints it after a ['%']. *)
Definition str_address (v : ip_version) (scope : option string) (x : Z) : string :=
  match v with
  | IPv4 => str_ipv4 x
  | IPv6 =>
      match scope with
      | None => str_ipv6 x
      | Some s => String.append (str_ipv6 x) (String "%"%char s)
      end
  end.

(** [str(network.network_address)] *)
Definition str_network_address (n : network) : string :=
  str_address (version n) (scope_id n) (network_address n).

(** [str(ip)] of an address [ip] of [network.hosts()]: only the single
    host of a /128, [IPv6Address(addr)] of the text itself, keeps the scope
    id; the other hosts are built from integers. *)
Definition str_host (n : network) (ip : Z) : string :=
  str_address (version n)
    (if prefixlen n =? max_prefixlen (version n) then scope_id n else None) ip.

(** ** The window of [IPScannerGUI] *)

(** [self.ip_cells], a dict from address text to [(row, col)], kept as an
    association list with the latest assignment first. *)
Definition cells_dict := list (string * (Z * Z)).

(** [d[k] = v] *)
Definition dict_set (k : string) (v : Z * Z) (d : cells_dict) : cells_dict :=
  (k, v) :: filter (fun p => negb (String.eqb (fst p) k)) d.

(** [d.get(k)]; [k in d] is [dict_get k d <> None]. *)
Fixpoint dict_get (k : string) (d : cells_dict) : option (Z * Z) :=
  match d with
  | [] => None
  | (k', v) :: rest => if String.eqb k' k then Some v else dict_get k rest
  end.

(** The background of a table item: grey (not scanned), red gradient
    (active, [Qt.UserRole] = ["active"]) or green gradient (inactive). *)
Inductive cell := Unscanned | ActiveCell | InactiveCell.

(** The texts [self.status_label] is given, by the values they show (the
    elapsed time of the last one is not modelled). *)
Inductive status_text :=
| StatusReady                                   (* ["就绪"], set by [init_ui] *)
| StatusScanning (network : string)             (* [f"正在扫描网段 {network}..."] *)
| StatusStopping                                (* ["正在停止扫描..."] *)
| StatusProgress (current total progress : Z)   (* [f"扫描进度: {current}/{total} ({progress}%)"] *)
| StatusProgressDone (current total : Z)        (* [f"扫描完成: {current}/{total} (100%)"] *)
| StatusComplete (found : Z).                   (* [f"扫描完成，发现 {len(active_ips)} 个活跃IP，耗时 ..."] *)

(** The state of the window the handlers read and write.  The tool tips
    and the result message are presentation text and are not modelled. *)
Record window := mk_window {
  w_gui : gui;
  w_thread_running : bool;           (* [self.scan_thread.isRunning()] *)
  w_ip_cells : cells_dict;           (* [self.ip_cells] *)
  w_cells : Z -> Z -> cell;          (* background of item [(row, col)] *)
  w_active_ips : list string;        (* [self.active_ips] *)
  w_progress : Z;                    (* the last value given to [self.progress_bar.setValue] *)
  w_status : status_text             (* [self.status_label.text()] *)
}.

(** The two loops of [create_ip_grid] filling [self.ip_cells]. *)
Definition grid_cells (base_ip : string) : cells_dict :=
  fold_left (fun d row =>
    fold_left (fun d col =>
      dict_set (String.append base_ip (str_int (row * 16 + col))) (row, col) d)
      (Z_range 0 16) d)
    (Z_range 0 16) [].

(** The [(row, col)] pairs in the order of the two loops of
    [create_ip_grid]. *)
Definition grid_pairs : list (Z * Z) :=
  flat_map (fun row => map (fun col => (row, col)) (Z_range 0 16)) (Z_range 0 16).

(** [base_ip = str(network.network_address).rsplit('.', 1)[0] + '.'] *)
Definition base_ip_of (net : network) : string :=
  String.append (rsplit1_head "."%char (str_network_address net)) ".".

(** [IPScannerGUI.create_ip_grid]: a [ValueError] opens the error box. *)
Definition create_ip_grid (network_text : string) (w : window) : window :=
  match ip_network network_text with
  | None =>
      let g := w_gui w in
      mk_window (mk_gui (scan_button_enabled g) (stop_button_enabled g) (scan_thread g) true)
        (w_thread_running w) (w_ip_cells w) (w_cells w) (w_active_ips w) (w_progress w)
        (w_status w)
  | Some net =>
      mk_window (w_gui w) (w_thread_running w) (grid_cells (base_ip_of net))
        (fun _ _ => Unscanned) (w_active_ips w) (w_progress w) (w_status w)
  end.

(** [IPScannerGUI.start_scan] on the whole window: validation, the grid, the
    buttons ([start_scan] above), the progress bar reset, the status label
    and [thread.start()]. *)
Definition start_scan_window (text : string) (workers : Z) (w : window) : window :=
  let network := strip text in
  match ip_network network with
  | None =>
      mk_window (start_scan text workers (w_gui w)) (w_thread_running w)
        (w_ip_cells w) (w_cells w) (w_active_ips w) (w_progress w) (w_status w)
  | Some _ =>
      let w1 := create_ip_grid network w in
      mk_window (start_scan text workers (w_gui w1)) true
        (w_ip_cells w1) (w_cells w1) (w_active_ips w1) 0 (StatusScanning network)
  end.

(** [IPScannerGUI.stop_scan] *)
Definition stop_scan (w : window) : window :=
  match scan_thread (w_gui w) with
  | Some t =>
      if w_thread_running w then
        let g := w_gui w in
        mk_window (mk_gui (scan_button_enabled g) false (Some (stop t)) (error_dialog g))
          (w_thread_running w) (w_ip_cells w) (w_cells w) (w_active_ips w) (w_progress w)
          StatusStopping
      else w
  | None => w
  end.

(** [float(n)] for [0 <= n < 2^53] (exact there). *)
Definition float_of_Z (n : Z) : PrimFloat.float :=
  PrimFloat.of_uint63 (Uint63.of_Z n).

(** [int(f)] for a finite float: truncation toward zero. *)
Definition py_int (f : PrimFloat.float) : Z :=
  match FloatOps.Prim2SF f with
  | SpecFloat.S754_finite s m e =>
      let v := if 0 <=? e then Z.pos m * 2 ^ e else Z.pos m / 2 ^ (- e) in
      if s then - v else v
  | _ => 0
  end.

(** [IPScannerGUI.update_progress]: [int((current / total) * 100)];
    [None] is the [ZeroDivisionError] of [total = 0]. *)
Definition update_progress (current total : Z) (w : window) : option window :=
  if total =? 0 then None
  else
    let progress := py_int (PrimFloat.mul (PrimFloat.div (float_of_Z current) (float_of_Z total))
                                          (float_of_Z 100)) in
    Some (mk_window (w_gui w) (w_thread_running w) (w_ip_cells w) (w_cells w)
            (w_active_ips w) progress
            (if progress =? 100 then StatusProgressDone current total
             else StatusProgress current total progress)).

(** [IPScannerGUI.update_ip_status] *)
Definition update_ip_status (ip : string) (is_active : bool) (w : window) : window :=
  match dict_get ip (w_ip_cells w) with
  | None => w
  | Some (row, col) =>
      let color := if is_active then ActiveCell else InactiveCell in
      mk_window (w_gui w) (w_thread_running w) (w_ip_cells w)
        (fun r c => if (r =? row) && (c =? col) then color else w_cells w r c)
        (if is_active then w_active_ips w ++ [ip] else w_active_ips w)
        (w_progress w) (w_status w)
  end.

(** [IPScannerGUI.scan_complete] *)
Definition scan_complete (active_ips : list string) (w : window) : window :=
  let g := w_gui w in
  mk_window (mk_gui true false (scan_thread g) (error_dialog g)) (w_thread_running w)
    (w_ip_cells w) (w_cells w) active_ips 100
    (StatusComplete (Z.of_nat (List.length active_ips))).

(** Delivering one signal of the worker scanning [net] to its slot; the
    signals carry [str(ip)]. *)
Definition deliver (net : network) (e : event) (w : window) : option window :=
  match e with
  | UpdateProgress current total => update_progress current total w
  | UpdateIpStatus ip is_active => Some (update_ip_status (str_host net ip) is_active w)
  | ScanComplete active => Some (scan_complete (map (str_host net) active) w)
  end.

(** Delivering the signals in emission order (the queued connections keep
    it). *)
Fixpoint deliver_all (net : network) (evs : list event) (w : window) : option window :=
  match evs with
  | [] => Some w
  | e :: rest =>
      match deliver net e w with
      | None => None
      | Some w' => deliver_all net rest w'
      end
  end.

(** ** Specification-side descriptions *)

(** The signals the loop emits for the folded results [ips], the first of
    which is the [(p+1)]-th result folded. *)
Fixpoint status_pairs (probe : Z -> bool) (total_ips p : Z) (ips : list Z) : list event :=
  match ips with
  | [] => []
  | ip :: rest =>
      UpdateIpStatus ip (probe ip) :: UpdateProgress (p + 1) total_ips
        :: status_pairs probe total_ips (p + 1) rest
  end.

(** How many of [n] completed results the loop folds when its first flag
    read is read number [i]: it goes on while the flag reads [True]. *)
Fixpoint folded_count (calls : list nat) (i n : nat) : nat :=
  match n with
  | O => O
  | S n' => if is_running_at calls i then S (folded_count calls (S i) n') else O
  end.

(** The window with the progress bar set to [p], the status label to [st],
    and nothing else changed. *)
Definition set_progress (w : window) (p : Z) (st : status_text) : window :=
  mk_window (w_gui w) (w_thread_running w) (w_ip_cells w) (w_cells w) (w_active_ips w) p st.

(** The [update_ip_status] slots run for the folded results [ips] of a
    sweep of [net], in order, without the progress updates between them. *)
Definition fold_status (net : network) (probe : Z -> bool) (ips : list Z) (w : window) : window :=
  fold_left (fun w ip => update_ip_status (str_host net ip) (probe ip) w) ips w.

(** The [(row, col)] of the grid cell [create_ip_grid] gives an address of
    the /24 it shows: [last octet = row * 16 + col]. *)
Definition cell_of (ip : Z) : Z * Z := ((ip mod 256) / 16, ip mod 16).

(** ** General lemmas *)

Lemma is_running_at_nil i : is_running_at [] i = true.
Proof. reflexivity. Qed.

Lemma folded_count_nil i n : folded_count [] i n = n.
Proof. revert i; induction n; intros i; simpl; auto. Qed.

Lemma folded_count_le calls i n : (folded_count calls i n <= n)%nat.
Proof.
  revert i; induction n as [|n IH]; intros i; simpl; [lia|].
  destruct (is_running_at calls i); [specialize (IH (S i)); lia | lia].
Qed.



(** The loop folds exactly the first [folded_count] completed results. *)
Lemma as_completed_loop_spec probe total_ips calls order :
  forall i s,
  as_completed_loop probe total_ips calls i order s =
  let k := folded_count calls i (List.length order) in
  mk_sweep (active_ips s ++ filter probe (firstn k order))
           (processed_ips s + Z.of_nat k)
           (emitted s ++ status_pairs probe total_ips (processed_ips s) (firstn k order)).
Proof.
  induction order as [|ip rest IH]; intros i s; simpl.
  - destruct s; simpl. rewrite !app_nil_r, Z.add_0_r. reflexivity.
  - destruct (is_running_at calls i) eqn:E; simpl.
    + rewrite IH; simpl. f_equal.
      * destruct (probe ip); simpl; [rewrite <- app_assoc|]; reflexivity.
      * lia.
      * rewrite <- app_assoc. reflexivity.
    + destruct s; simpl. rewrite !app_nil_r, Z.add_0_r. reflexivity.
Qed.

Lemma run_network_spec probe sched calls net :
  run_network probe sched calls net =
  let order := sched (hosts net) in
  let k := folded_count calls 0 (List.length order) in
  let active := filter probe (firstn k order) in
  mk_trace (status_pairs probe (num_addresses net) 0 (firstn k order)
            ++ (if is_running_at calls (List.length order)
                then [UpdateProgress (num_addresses net) (num_addresses net)] else [])
            ++ [ScanComplete active])
           active (Z.of_nat k) (hosts net).
Proof.
  unfold run_network. rewrite as_completed_loop_spec. reflexivity.
Qed.



Lemma NoDup_firstn_of (A : Type) (l : list A) k : NoDup l -> NoDup (firstn k l).
Proof.
  intros H. rewrite <- (firstn_skipn k l) in H. exact (NoDup_app_remove_r _ _ H).
Qed.

Lemma Z_range_NoDup lo hi : NoDup (Z_range lo hi).
Proof.
  unfold Z_range. apply NoDup_map_NoDup_ForallPairs; [|apply seq_NoDup].
  intros a b _ _ H. lia.
Qed.

Lemma Z_range_length lo hi : List.length (Z_range lo hi) = Z.to_nat (hi - lo).
Proof. unfold Z_range. rewrite length_map, length_seq. reflexivity. Qed.

Lemma hosts_NoDup net : NoDup (hosts net).
Proof.
  unfold hosts. destruct (_ =? _ - 1); [apply Z_range_NoDup|].
  destruct (_ =? _); [repeat constructor; simpl; tauto|].
  destruct (version net); apply Z_range_NoDup.
Qed.

Lemma hosts_length_le net : 0 <= prefixlen net <= max_prefixlen (version net) ->
  Z.of_nat (List.length (hosts net)) <= num_addresses net.
Proof.
  intros Hle. unfold hosts, broadcast_address.
  assert (Hn : 0 < num_addresses net) by (unfold num_addresses; apply Z.pow_pos_nonneg; lia).
  destruct (prefixlen net =? max_prefixlen (version net) - 1) eqn:E1.
  - rewrite Z_range_length. lia.
  - destruct (prefixlen net =? max_prefixlen (version net)) eqn:E2.
    + simpl. lia.
    + destruct (version net); rewrite Z_range_length; lia.
Qed.

Lemma skipn_cons_nth (l : list Z) : forall i x l',
  skipn i l = x :: l' -> nth i l 0 = x /\ skipn (S i) l = l'.
Proof.
  induction l as [|a l IH]; intros [|i] x l' H; simpl in *; try discriminate.
  - injection H as -> ->. auto.
  - apply IH. exact H.
Qed.

(** The batch loop keeps, in host order, the hosts whose probe succeeded. *)
Lemma batch_loop_spec probe hs : forall rest i acc,
  skipn i hs = rest ->
  batch_loop hs i (map probe rest) acc = acc ++ filter probe rest.
Proof.
  induction rest as [|x rest IH]; intros i acc H; simpl.
  - rewrite app_nil_r. reflexivity.
  - destruct (skipn_cons_nth hs i x rest H) as [-> Hs].
    rewrite (IH (S i)); [|exact Hs].
    destruct (probe x); simpl; [rewrite <- app_assoc|]; reflexivity.
Qed.

Lemma scan_network_spec probe s max_workers net :
  ip_network s = Some net -> 0 < max_workers ->
  scan_network probe s max_workers = mk_batch (Ret (filter probe (hosts net))) (hosts net).
Proof.
  intros H Hw. unfold scan_network. rewrite H.
  replace (max_workers <=? 0) with false by (symmetry; apply Z.leb_gt; lia).
  rewrite (batch_loop_spec probe (hosts net) (hosts net) 0 []); reflexivity.
Qed.

Lemma run_valid probe sched calls s net :
  ip_network s = Some net -> run probe sched calls s = run_network probe sched calls net.
Proof. intros H. unfold run, ScanThread_run. simpl. rewrite H. reflexivity. Qed.

Lemma run_invalid probe sched calls s :
  ip_network s = None -> run probe sched calls s = no_trace.
Proof. intros H. unfold run, ScanThread_run. simpl. rewrite H. reflexivity. Qed.

Lemma is_running_at_later_call t1 t2 l i :
  (t1 <= t2)%nat -> is_running_at (t1 :: t2 :: l) i = is_running_at (t1 :: l) i.
Proof.
  intros Ht. unfold is_running_at. simpl.
  destruct (Nat.leb t1 i) eqn:E1; simpl; [reflexivity|].
  apply Nat.leb_gt in E1.
  assert (E2 : Nat.leb t2 i = false) by (apply Nat.leb_gt; lia).
  rewrite E2. reflexivity.
Qed.

Lemma as_completed_loop_ext probe total_ips c1 c2 :
  (forall i, is_running_at c1 i = is_running_at c2 i) ->
  forall order i s,
  as_completed_loop probe total_ips c1 i order s =
  as_completed_loop probe total_ips c2 i order s.
Proof.
  intros Hc. induction order as [|ip rest IH]; intros i s; simpl; [reflexivity|].
  rewrite Hc. destruct (is_running_at c2 i); simpl; [apply IH|reflexivity].
Qed.

Lemma run_ext probe sched c1 c2 s :
  (forall i, is_running_at c1 i = is_running_at c2 i) ->
  run probe sched c1 s = run probe sched c2 s.
Proof.
  intros Hc. destruct (ip_network s) as [net|] eqn:Hs.
  2:{ rewrite !run_invalid by exact Hs. reflexivity. }
  rewrite !(run_valid _ _ _ _ _ Hs). unfold run_network. rewrite (as_completed_loop_ext probe _ c1 c2 Hc), Hc.
  reflexivity.
Qed.

Lemma ScanThread_run_ext probe sched c1 c2 t :
  (forall i, is_running_at c1 i = is_running_at c2 i) ->
  ScanThread_run probe sched c1 t = ScanThread_run probe sched c2 t.
Proof.
  intros Hc. unfold ScanThread_run.
  destruct (ip_network (st_network t)) as [net|]; [|reflexivity].
  destruct (st_max_workers t <=? 0); [reflexivity|].
  unfold run_network. rewrite (as_completed_loop_ext probe _ c1 c2 Hc), Hc.
  reflexivity.
Qed.

(** The addresses of the [update_ip_status] signals of an event list. *)
Definition result_ips (evs : list event) : list Z :=
  flat_map (fun e => match e with UpdateIpStatus ip _ => [ip] | _ => [] end) evs.

Lemma result_ips_status_pairs probe t p ips :
  result_ips (status_pairs probe t p ips) = ips.
Proof.
  revert p; induction ips as [|ip rest IH]; intros p; simpl; [reflexivity|].
  f_equal. apply IH.
Qed.

(** What does hold of an uncancelled sweep: one [update_ip_status] per host,
    in some order, and [processed_ips] ends at the number of hosts. *)
Lemma uncancelled_results_perm_hosts probe sched s net :
  ip_network s = Some net ->
  (forall l, Permutation (sched l) l) ->
  let tr := run probe sched [] s in
  Permutation (result_ips (tr_events tr)) (hosts net) /\
  tr_processed tr = Z.of_nat (List.length (hosts net)).
Proof.
  intros Hs Hp. rewrite (run_valid _ _ _ _ _ Hs), run_network_spec. simpl.
  rewrite folded_count_nil, firstn_all. unfold result_ips.
  rewrite flat_map_app. fold (result_ips (status_pairs probe (num_addresses net) 0 (sched (hosts net)))).
  rewrite result_ips_status_pairs. simpl. rewrite app_nil_r.
  split; [apply Hp|]. now rewrite (Permutation_length (Hp (hosts net))).
Qed.

(** For a block of at least four addresses, IPv4 [hosts()] leaves out the
    network and broadcast addresses, IPv6 [hosts()] the network address. *)
Lemma hosts_length_inner net :
  0 <= prefixlen net <= max_prefixlen (version net) - 2 ->
  Z.of_nat (List.length (hosts net)) =
  num_addresses net - match version net with IPv4 => 2 | IPv6 => 1 end.
Proof.
  intros Hp. unfold hosts, broadcast_address.
  replace (prefixlen net =? _ - 1) with false by (symmetry; apply Z.eqb_neq; lia).
  replace (prefixlen net =? _) with false by (symmetry; apply Z.eqb_neq; lia).
  assert (4 <= num_addresses net).
  { unfold num_addresses. change 4 with (2 ^ 2). apply Z.pow_le_mono_r; lia. }
  destruct (version net); rewrite Z_range_length; lia.
Qed.

(** * Further lemmas: text, parsing, the grid *)

Lemma append_assoc_str (a b c : string) :
  String.append (String.append a b) c = String.append a (String.append b c).
Proof. induction a; simpl; congruence. Qed.

Lemma no_char_app c a b :
  no_char c (String.append a b) = no_char c a && no_char c b.
Proof. induction a; simpl; [reflexivity|]. rewrite IHa, andb_assoc. reflexivity. Qed.

Lemma split_on_no_char c s : no_char c s = true -> split_on c s = [s].
Proof.
  induction s as [|x s IH]; simpl; [reflexivity|].
  intros H. apply andb_prop in H as [Hx Hs]. apply negb_true_iff in Hx.
  rewrite Hx, (IH Hs). reflexivity.
Qed.

Lemma split_on_app c a b :
  no_char c a = true ->
  split_on c (String.append a (String c b)) = a :: split_on c b.
Proof.
  induction a as [|x a IH]; simpl; intros H.
  - rewrite Ascii.eqb_refl. reflexivity.
  - apply andb_prop in H as [Hx Ha]. apply negb_true_iff in Hx.
    rewrite Hx, (IH Ha). reflexivity.
Qed.

Lemma In_Z_range lo hi k : In k (Z_range lo hi) <-> lo <= k < hi.
Proof.
  unfold Z_range. rewrite in_map_iff. split.
  - intros [i [<- Hi]]. apply in_seq in Hi. lia.
  - intros Hk. exists (Z.to_nat (k - lo)). split; [lia|]. apply in_seq. lia.
Qed.

Lemma forallb_Z_range f lo hi k :
  forallb f (Z_range lo hi) = true -> lo <= k < hi -> f k = true.
Proof.
  intros H Hk. rewrite forallb_forall in H. apply H, In_Z_range, Hk.
Qed.

(** The decimal text of an octet: parsed back by [_parse_octet], not empty,
    free of ['.'] and ['/'] (checked on all 256 values). *)
Definition octet_text_ok (k : Z) : bool :=
  match parse_octet (str_int k) with Some v => v =? k | None => false end
  && no_char "."%char (str_int k) && no_char "/"%char (str_int k)
  && negb (String.eqb (str_int k) EmptyString).

Lemma octet_text_ok_all k : 0 <= k < 256 -> octet_text_ok k = true.
Proof.
  apply forallb_Z_range. vm_compute. reflexivity.
Qed.

Lemma octet_text k :
  0 <= k < 256 ->
  parse_octet (str_int k) = Some k /\ no_char "."%char (str_int k) = true /\
  no_char "/"%char (str_int k) = true /\ str_int k <> EmptyString.
Proof.
  intros Hk. pose proof (octet_text_ok_all k Hk) as H. unfold octet_text_ok in H.
  destruct (parse_octet (str_int k)) as [v|]; [|discriminate].
  apply andb_prop in H as [H H4]. apply andb_prop in H as [H H3].
  apply andb_prop in H as [H1 H2]. apply Z.eqb_eq in H1. subst v.
  apply negb_true_iff, String.eqb_neq in H4. auto.
Qed.

Lemma ip_int_from_string_nonempty s :
  s <> EmptyString ->
  ip_int_from_string s =
  let octets := split_on "."%char s in
  if negb (List.length octets =? 4)%nat then None else octets_big 0 octets.
Proof. destruct s; [congruence|reflexivity]. Qed.

(** The four octets of an address, most significant first. *)
Lemma octets_decomp x :
  0 <= x < 2 ^ 32 ->
  x = (((x / 256 / 256 / 256) mod 256 * 256 + (x / 256 / 256) mod 256) * 256
        + (x / 256) mod 256) * 256 + x mod 256.
Proof.
  intros Hx.
  pose proof (Z.div_mod x 256 ltac:(lia)) as E0.
  pose proof (Z.div_mod (x / 256) 256 ltac:(lia)) as E1.
  pose proof (Z.div_mod (x / 256 / 256) 256 ltac:(lia)) as E2.
  pose proof (Z.mod_pos_bound x 256 ltac:(lia)).
  pose proof (Z.mod_pos_bound (x / 256) 256 ltac:(lia)).
  pose proof (Z.mod_pos_bound (x / 256 / 256) 256 ltac:(lia)).
  rewrite (Z.mod_small (x / 256 / 256 / 256)); lia.
Qed.

Lemma str_ipv4_shape x :
  0 <= x < 2 ^ 32 ->
  let o k := str_int k in
  str_ipv4 x =
  String.append (o ((x / 256 / 256 / 256) mod 256))
    (String "." (String.append (o ((x / 256 / 256) mod 256))
    (String "." (String.append (o ((x / 256) mod 256))
    (String "." (o (x mod 256))))))).
Proof. reflexivity. Qed.

Lemma mod256_range z : 0 <= z mod 256 < 256.
Proof. apply Z.mod_pos_bound. lia. Qed.

Lemma split_str_ipv4 x :
  0 <= x < 2 ^ 32 ->
  split_on "."%char (str_ipv4 x) =
  [str_int ((x / 256 / 256 / 256) mod 256); str_int ((x / 256 / 256) mod 256);
   str_int ((x / 256) mod 256); str_int (x mod 256)].
Proof.
  intros Hx. rewrite (str_ipv4_shape x Hx). cbv zeta.
  destruct (octet_text _ (mod256_range (x / 256 / 256 / 256))) as [_ [D3 _]].
  destruct (octet_text _ (mod256_range (x / 256 / 256))) as [_ [D2 _]].
  destruct (octet_text _ (mod256_range (x / 256))) as [_ [D1 _]].
  destruct (octet_text _ (mod256_range x)) as [_ [D0 _]].
  rewrite (split_on_app _ _ _ D3), (split_on_app _ _ _ D2), (split_on_app _ _ _ D1),
    (split_on_no_char _ _ D0).
  reflexivity.
Qed.

Lemma str_ipv4_nonempty x : 0 <= x < 2 ^ 32 -> str_ipv4 x <> EmptyString.
Proof.
  intros Hx. rewrite (str_ipv4_shape x Hx). cbv zeta.
  destruct (octet_text _ (mod256_range (x / 256 / 256 / 256))) as [_ [_ [_ Hne]]].
  destruct (str_int ((x / 256 / 256 / 256) mod 256)); [congruence|discriminate].
Qed.

(** [str(IPv4Address(x))] is read back by the address parser. *)
Lemma ip_int_from_str_ipv4 x :
  0 <= x < 2 ^ 32 -> ip_int_from_string (str_ipv4 x) = Some x.
Proof.
  intros Hx. rewrite (ip_int_from_string_nonempty _ (str_ipv4_nonempty x Hx)).
  cbv zeta. rewrite (split_str_ipv4 x Hx). simpl.
  destruct (octet_text _ (mod256_range (x / 256 / 256 / 256))) as [P3 _].
  destruct (octet_text _ (mod256_range (x / 256 / 256))) as [P2 _].
  destruct (octet_text _ (mod256_range (x / 256))) as [P1 _].
  destruct (octet_text _ (mod256_range x)) as [P0 _].
  rewrite P3, P2, P1, P0. f_equal. rewrite (octets_decomp x Hx) at 5. lia.
Qed.

Lemma str_ipv4_inj x y :
  0 <= x < 2 ^ 32 -> 0 <= y < 2 ^ 32 -> str_ipv4 x = str_ipv4 y -> x = y.
Proof.
  intros Hx Hy E. pose proof (ip_int_from_str_ipv4 x Hx) as Ex.
  rewrite E, (ip_int_from_str_ipv4 y Hy) in Ex. congruence.
Qed.

Lemma decimal_acc_nonneg acc s : 0 <= acc -> 0 <= decimal_acc acc s.
Proof.
  revert acc; induction s as [|x s IH]; intros acc H; simpl; [lia|].
  apply IH. lia.
Qed.

Lemma parse_octet_range s v : parse_octet s = Some v -> 0 <= v <= 255.
Proof.
  unfold parse_octet. destruct s as [|c0 r]; [discriminate|].
  destruct (negb _); [discriminate|].
  destruct (3 <? _)%nat; [discriminate|].
  destruct (_ && _); [discriminate|].
  destruct (255 <? int_of_string _) eqn:E; [discriminate|].
  intros H. injection H as <-. apply Z.ltb_ge in E.
  split; [apply decimal_acc_nonneg; lia|exact E].
Qed.

Lemma octets_big_range l : forall acc v,
  0 <= acc -> octets_big acc l = Some v ->
  acc * 256 ^ Z.of_nat (List.length l) <= v < (acc + 1) * 256 ^ Z.of_nat (List.length l).
Proof.
  induction l as [|o l IH]; intros acc v Ha H; cbn [octets_big] in H.
  - injection H as <-. simpl. lia.
  - destruct (parse_octet o) as [v0|] eqn:Eo; [|discriminate].
    apply parse_octet_range in Eo.
    specialize (IH (acc * 256 + v0) v ltac:(lia) H).
    replace (Z.of_nat (List.length (o :: l))) with (Z.succ (Z.of_nat (List.length l)))
      by (simpl; lia).
    rewrite Z.pow_succ_r by lia.
    assert (0 <= 256 ^ Z.of_nat (List.length l)) by (apply Z.pow_nonneg; lia).
    nia.
Qed.

Lemma ip_int_from_string_range s v :
  ip_int_from_string s = Some v -> 0 <= v < 2 ^ 32.
Proof.
  unfold ip_int_from_string. destruct s as [|c r]; [discriminate|].
  destruct (negb _) eqn:E; [discriminate|].
  apply negb_false_iff, Nat.eqb_eq in E. intros H.
  apply octets_big_range in H; [|lia]. rewrite E in H. simpl in H. lia.
Qed.

Lemma bit_length_nonneg x : 0 <= bit_length x.
Proof.
  unfold bit_length. destruct (x =? 0); [lia|]. pose proof (Z.log2_nonneg x). lia.
Qed.

Lemma prefix_from_ip_int_range n p : prefix_from_ip_int n = Some p -> 0 <= p <= 32.
Proof.
  unfold prefix_from_ip_int. cbv zeta.
  assert (Ht : 0 <= count_righthand_zero_bits n 32 <= 32).
  { unfold count_righthand_zero_bits. destruct (n =? 0); [lia|].
    pose proof (bit_length_nonneg (Z.land (Z.lnot n) (n - 1))). lia. }
  destruct (_ =? _); [|discriminate]. intros Hs. assert (p = 32 - count_righthand_zero_bits n 32) by congruence. lia.
Qed.

Lemma prefix_from_prefix_string_range mx m p :
  prefix_from_prefix_string mx m = Some p -> 0 <= p <= mx.
Proof.
  unfold prefix_from_prefix_string.
  destruct (negb (isdigit m)); [discriminate|].
  destruct ((0 <=? int_of_string m) && (int_of_string m <=? mx)) eqn:E; [|discriminate].
  intros H. injection H as <-. apply andb_prop in E as [E1 E2].
  apply Z.leb_le in E1, E2. lia.
Qed.

Lemma prefix_from_ip_string_range m p : prefix_from_ip_string m = Some p -> 0 <= p <= 32.
Proof.
  unfold prefix_from_ip_string.
  destruct (ip_int_from_string m) as [n|]; [|discriminate].
  destruct (prefix_from_ip_int n) eqn:E.
  - intros H. injection H as <-. exact (prefix_from_ip_int_range _ _ E).
  - apply prefix_from_ip_int_range.
Qed.

Lemma make_netmask_range m p : make_netmask m = Some p -> 0 <= p <= 32.
Proof.
  unfold make_netmask.
  destruct (prefix_from_prefix_string 32 m) eqn:E.
  - intros H. injection H as <-. exact (prefix_from_prefix_string_range _ _ _ E).
  - apply prefix_from_ip_string_range.
Qed.

(** The netmask of a prefix has no bit among the low [32 - p] ones
    (checked on the 33 prefixes). *)
Lemma netmask_low_bits p :
  0 <= p <= 32 -> Z.land (ip_int_from_prefix p) (Z.ones (32 - p)) = 0.
Proof.
  intros Hp. apply Z.eqb_eq.
  apply (forallb_Z_range (fun p => Z.land (ip_int_from_prefix p) (Z.ones (32 - p)) =? 0) 0 33);
    [vm_compute; reflexivity|lia].
Qed.

(** The same for IPv6 (checked on the 129 prefixes). *)
Lemma netmask_low_bits6 p :
  0 <= p <= 128 -> Z.land (ip_int_from_prefix6 p) (Z.ones (128 - p)) = 0.
Proof.
  intros Hp. apply Z.eqb_eq.
  apply (forallb_Z_range (fun p => Z.land (ip_int_from_prefix6 p) (Z.ones (128 - p)) =? 0) 0 129);
    [vm_compute; reflexivity|lia].
Qed.

(** A strict network check [packed & netmask == packed] leaves the address
    aligned on the block size. *)
Lemma aligned_of_mask mx mask p packed :
  0 <= p <= mx ->
  Z.land mask (Z.ones (mx - p)) = 0 ->
  Z.land packed mask = packed ->
  packed mod 2 ^ (mx - p) = 0.
Proof.
  intros Hp Hm El. rewrite <- Z.land_ones by lia.
  rewrite <- El, <- Z.land_assoc, Hm. apply Z.land_0_r.
Qed.

Lemma ipv4_network_valid s net :
  ipv4_network s = NetOk net ->
  version net = IPv4 /\ scope_id net = None /\
  0 <= prefixlen net <= 32 /\ 0 <= network_address net < 2 ^ 32 /\
  network_address net mod num_addresses net = 0.
Proof.
  unfold ipv4_network.
  destruct (2 <? List.length (split_on "/"%char s))%nat; [discriminate|].
  destruct (split_on "/"%char s) as [|a rest]; [discriminate|].
  destruct (ip_int_from_string a) as [packed|] eqn:Ea; [|discriminate].
  assert (Hm : forall p, match rest with [] => Some 32 | m :: _ => make_netmask m end = Some p ->
                         0 <= p <= 32).
  { intros p. destruct rest as [|m r]; [intros H; injection H as <-; lia|apply make_netmask_range]. }
  destruct (match rest with [] => Some 32 | m :: _ => make_netmask m end) as [p|];
    [|discriminate].
  specialize (Hm p eq_refl).
  destruct (Z.land packed (ip_int_from_prefix p) =? packed) eqn:El; [|discriminate].
  intros H. injection H as <-. cbn.
  apply ip_int_from_string_range in Ea. apply Z.eqb_eq in El.
  repeat split; try lia.
  unfold num_addresses, mk_network. cbn [version max_prefixlen prefixlen network_address].
  apply (aligned_of_mask 32 (ip_int_from_prefix p)); [lia|apply netmask_low_bits; lia|exact El].
Qed.

(** *** The IPv6 parser stays within 128 bits *)

Lemma hex_value_range x : is_hex_digit x = true -> 0 <= hex_value x < 16.
Proof.
  unfold is_hex_digit, hex_value. intros H.
  destruct (Z.of_nat (nat_of_ascii x) <=? 57) eqn:E1;
    [apply Z.leb_le in E1|apply Z.leb_gt in E1];
  [|destruct (Z.of_nat (nat_of_ascii x) <=? 70) eqn:E2;
      [apply Z.leb_le in E2|apply Z.leb_gt in E2]];
  repeat match type of H with
         | (_ || _)%bool = true => apply orb_prop in H as [H|H]
         | (_ && _)%bool = true => apply andb_prop in H as [?H ?H]
         end;
  repeat match goal with Hn : (_ <=? _)%nat = true |- _ => apply Nat.leb_le in Hn end;
  lia.
Qed.

Lemma hex_acc_range s : forall acc,
  all_hex s = true -> 0 <= acc ->
  acc * 16 ^ Z.of_nat (String.length s) <= hex_acc acc s
  < (acc + 1) * 16 ^ Z.of_nat (String.length s).
Proof.
  induction s as [|x s IH]; intros acc Hs Ha; [simpl; lia|].
  cbn [hex_acc all_hex String.length] in *.
  apply andb_prop in Hs as [Hx Hs]. apply hex_value_range in Hx.
  specialize (IH (acc * 16 + hex_value x) Hs ltac:(lia)).
  replace (Z.of_nat (S (String.length s))) with (Z.succ (Z.of_nat (String.length s))) by lia.
  rewrite Z.pow_succ_r by lia.
  assert (0 <= 16 ^ Z.of_nat (String.length s)) by (apply Z.pow_nonneg; lia).
  nia.
Qed.

Lemma parse_hextet_range s h : parse_hextet s = Some h -> 0 <= h < 2 ^ 16.
Proof.
  unfold parse_hextet.
  destruct (all_hex s) eqn:Eh; [|discriminate]. simpl.
  destruct (4 <? String.length s)%nat eqn:El; [discriminate|].
  apply Nat.ltb_ge in El.
  assert (Hr : 0 <= hex_acc 0 s < 2 ^ 16).
  { pose proof (hex_acc_range s 0 Eh ltac:(lia)) as H.
    assert (16 ^ Z.of_nat (String.length s) <= 2 ^ 16).
    { change (2 ^ 16) with (16 ^ 4). apply Z.pow_le_mono_r; lia. }
    lia. }
  destruct s; [discriminate|]. intros H. injection H as <-. exact Hr.
Qed.

(** [(a << 16) | h] is [a * 2^16 + h] for a hextet [h]. *)
Lemma lor_shiftl_16 a h : 0 <= h < 2 ^ 16 -> Z.lor (Z.shiftl a 16) h = a * 2 ^ 16 + h.
Proof.
  intros Hh. rewrite Z.shiftl_mul_pow2 by lia.
  assert (Hd : Z.land (a * 2 ^ 16) h = 0).
  { apply Z.bits_inj'. intros n Hn. rewrite Z.land_spec, Z.bits_0.
    destruct (Z_lt_le_dec n 16).
    - rewrite Z.mul_pow2_bits_low by lia. reflexivity.
    - rewrite <- (Z.mod_small h (2 ^ 16)) by lia.
      rewrite Z.mod_pow2_bits_high by lia. apply andb_false_r. }
  rewrite <- Z.lxor_lor by exact Hd. rewrite <- Z.add_nocarry_lxor by exact Hd. reflexivity.
Qed.

Lemma shift_hextets_range parts : forall acc v,
  0 <= acc -> shift_hextets acc parts = Some v ->
  acc * 2 ^ (16 * Z.of_nat (List.length parts)) <= v
  < (acc + 1) * 2 ^ (16 * Z.of_nat (List.length parts)).
Proof.
  induction parts as [|p parts IH]; intros acc v Ha H; cbn [shift_hextets] in H.
  - injection H as <-. simpl. lia.
  - destruct (parse_hextet p) as [h|] eqn:Ep; [|discriminate].
    apply parse_hextet_range in Ep. rewrite lor_shiftl_16 in H by exact Ep.
    specialize (IH (acc * 2 ^ 16 + h) v ltac:(change (2 ^ 16) with 65536 in *; lia) H).
    replace (16 * Z.of_nat (List.length (p :: parts)))
      with (16 + 16 * Z.of_nat (List.length parts)) by (cbn [List.length]; lia).
    rewrite Z.pow_add_r by lia.
    assert (0 <= 2 ^ (16 * Z.of_nat (List.length parts))) by (apply Z.pow_nonneg; lia).
    nia.
Qed.

Lemma find_skip_range inner : forall i sk k,
  find_skip i inner sk = Some (Some k) ->
  sk = Some k \/ i <= k < i + Z.of_nat (List.length inner).
Proof.
  induction inner as [|p inner IH]; intros i sk k H; cbn [find_skip] in H.
  - injection H as ->. left. reflexivity.
  - destruct (String.eqb p EmptyString).
    + destruct sk as [k'|]; [discriminate|].
      destruct (IH _ _ _ H) as [E|E]; [injection E as <-|]; right; simpl; lia.
    + destruct (IH _ _ _ H) as [E|E]; [left; exact E|right; simpl; lia].
Qed.

(** The sizes [hextet_layout] gives: [parts_hi + parts_lo + parts_skipped
    = 8], with at most [len(parts)] parts copied. *)
Lemma hextet_layout_range parts hi lo sk :
  hextet_layout parts = Some (hi, lo, sk) ->
  0 <= hi /\ 0 <= lo /\ 0 <= sk /\ hi + lo + sk = 8 /\
  hi + lo <= Z.of_nat (List.length parts).
Proof.
  unfold hextet_layout.
  set (n := Z.of_nat (List.length parts)).
  destruct (find_skip 1 (firstn (Z.to_nat (n - 2)) (tl parts)) None) as [[k|]|] eqn:Ef;
    [| |discriminate].
  - apply find_skip_range in Ef as [Ef|Ef]; [discriminate|].
    rewrite length_firstn in Ef.
    assert (Hk : 1 <= k <= n - 2) by lia.
    destruct (_ && negb _); [discriminate|].
    destruct (_ && negb _); [discriminate|].
    set (hi0 := if String.eqb (hd EmptyString parts) EmptyString then k - 1 else k).
    set (lo0 := if String.eqb (last parts EmptyString) EmptyString then n - k - 1 - 1
                else n - k - 1).
    assert (Hb : 0 <= hi0 /\ 0 <= lo0 /\ hi0 + lo0 <= n).
    { subst hi0 lo0. destruct (String.eqb (hd EmptyString parts) EmptyString),
        (String.eqb (last parts EmptyString) EmptyString); lia. }
    clearbody hi0 lo0.
    destruct (8 - (hi0 + lo0) <? 1) eqn:Es; [discriminate|]. apply Z.ltb_ge in Es.
    intros H. assert (E : (hi0, lo0, 8 - (hi0 + lo0)) = (hi, lo, sk)) by congruence.
    apply pair_equal_spec in E as [E E3]. apply pair_equal_spec in E as [E1 E2].
    rewrite <- E1, <- E2, <- E3. lia.
  - destruct (negb (n =? 8)) eqn:E8; [discriminate|].
    apply negb_false_iff, Z.eqb_eq in E8.
    destruct (String.eqb (hd EmptyString parts) EmptyString); [discriminate|].
    destruct (String.eqb (last parts EmptyString) EmptyString); [discriminate|].
    intros H. injection H as <- <- <-. lia.
Qed.

Lemma ip6_int_from_string_range s v :
  ip6_int_from_string s = Some v -> 0 <= v < 2 ^ 128.
Proof.
  unfold ip6_int_from_string. destruct s as [|c r]; [discriminate|].
  destruct (_ <? 3)%nat; [discriminate|].
  match goal with |- match ?P with _ => _ end = _ -> _ => destruct P as [parts|] end;
    [|discriminate].
  destruct (9 <? _); [discriminate|].
  destruct (hextet_layout parts) as [[[hi lo] sk]|] eqn:EL; [|discriminate].
  apply hextet_layout_range in EL as (Hhi & Hlo & Hsk & H8 & Hn).
  destruct (shift_hextets 0 _) as [v1|] eqn:E1; [|discriminate].
  intros H.
  apply shift_hextets_range in E1; [|lia].
  rewrite length_firstn in E1.
  replace (Z.of_nat (Nat.min (Z.to_nat hi) (List.length parts))) with hi in E1 by lia.
  rewrite Z.shiftl_mul_pow2 in H by lia.
  assert (HB : 1 <= 2 ^ (16 * sk))
    by (pose proof (Z.pow_pos_nonneg 2 (16 * sk) ltac:(lia) ltac:(lia)); lia).
  apply shift_hextets_range in H; [|nia].
  rewrite length_skipn in H.
  replace (Z.of_nat (List.length parts - Z.to_nat (Z.of_nat (List.length parts) - lo)))
    with lo in H by lia.
  assert (HC : 1 <= 2 ^ (16 * lo))
    by (pose proof (Z.pow_pos_nonneg 2 (16 * lo) ltac:(lia) ltac:(lia)); lia).
  assert (HABC : 2 ^ (16 * hi) * 2 ^ (16 * sk) * 2 ^ (16 * lo) = 2 ^ 128).
  { rewrite <- !Z.pow_add_r by lia. f_equal. lia. }
  rewrite <- HABC. clear HABC.
  generalize dependent (2 ^ (16 * hi)). generalize dependent (2 ^ (16 * sk)).
  generalize dependent (2 ^ (16 * lo)). intros C HC B H HB A E1.
  assert (0 <= (A - 1 - v1) * B * C) by (apply Z.mul_nonneg_nonneg; nia).
  assert (0 <= (B - 1) * C) by nia.
  nia.
Qed.

Lemma ipv6_address_range s v scope :
  ipv6_address s = Some (v, scope) -> 0 <= v < 2 ^ 128.
Proof.
  unfold ipv6_address.
  destruct (negb _); [discriminate|].
  destruct (split_scope_id s) as [[addr sc]|]; [|discriminate].
  destruct (ip6_int_from_string addr) as [n|] eqn:E; [|discriminate].
  intros H. injection H as <- _. exact (ip6_int_from_string_range _ _ E).
Qed.

Lemma ipv6_network_valid s net :
  ipv6_network s = NetOk net ->
  version net = IPv6 /\
  0 <= prefixlen net <= 128 /\ 0 <= network_address net < 2 ^ 128 /\
  network_address net mod num_addresses net = 0.
Proof.
  unfold ipv6_network.
  destruct (2 <? List.length (split_on "/"%char s))%nat; [discriminate|].
  destruct (split_on "/"%char s) as [|a rest]; [discriminate|].
  destruct (ipv6_address a) as [[packed scope]|] eqn:Ea; [|discriminate].
  assert (Hm : forall p, match rest with
                         | [] => Some 128 | m :: _ => prefix_from_prefix_string 128 m end = Some p ->
                         0 <= p <= 128).
  { intros p. destruct rest as [|m r];
      [intros H; injection H as <-; lia|apply prefix_from_prefix_string_range]. }
  destruct (match rest with
            | [] => Some 128 | m :: _ => prefix_from_prefix_string 128 m end) as [p|];
    [|discriminate].
  specialize (Hm p eq_refl).
  destruct (Z.land packed (ip_int_from_prefix6 p) =? packed) eqn:El; [|discriminate].
  intros H. injection H as <-. cbn.
  apply ipv6_address_range in Ea. apply Z.eqb_eq in El.
  repeat split; try lia.
  unfold num_addresses. cbn [version max_prefixlen prefixlen network_address].
  apply (aligned_of_mask 128 (ip_int_from_prefix6 p)); [lia|apply netmask_low_bits6; lia|exact El].
Qed.

(** What [ip_network] accepts: a prefix in [0 .. max_prefixlen], an address
    of the version's width, and no host bit set; an IPv4 network carries no
    scope id. *)
Lemma ip_network_valid s net :
  ip_network s = Some net ->
  0 <= prefixlen net <= max_prefixlen (version net) /\
  0 <= network_address net < 2 ^ max_prefixlen (version net) /\
  network_address net mod num_addresses net = 0.
Proof.
  unfold ip_network.
  destruct (ipv4_network s) as [n| |] eqn:E4.
  - intros H. injection H as <-.
    destruct (ipv4_network_valid _ _ E4) as (-> & _ & ?). exact H.
  - destruct (ipv6_network s) as [n| |] eqn:E6; try discriminate.
    intros H. injection H as <-.
    destruct (ipv6_network_valid _ _ E6) as (-> & ?). exact H.
  - discriminate.
Qed.

Lemma ip_network_ipv4_scope s net :
  ip_network s = Some net -> version net = IPv4 -> scope_id net = None.
Proof.
  unfold ip_network.
  destruct (ipv4_network s) as [n| |] eqn:E4.
  - intros H _. injection H as <-. apply (ipv4_network_valid _ _ E4).
  - destruct (ipv6_network s) as [n| |] eqn:E6; try discriminate.
    intros H. injection H as <-. rewrite (proj1 (ipv6_network_valid _ _ E6)). discriminate.
  - discriminate.
Qed.

Lemma Z_range_succ lo n :
  map (fun i => lo + Z.of_nat i) (seq 0 (S n)) =
  lo :: map (fun i => (lo + 1) + Z.of_nat i) (seq 0 n).
Proof.
  simpl. f_equal; [lia|]. rewrite <- seq_shift, map_map.
  apply map_ext. intros i. lia.
Qed.

Lemma Z_range_sorted lo hi : Sorted Z.lt (Z_range lo hi).
Proof.
  unfold Z_range. generalize (Z.to_nat (hi - lo)) as n. intros n. revert lo.
  induction n as [|n IH]; intros lo; [constructor|].
  rewrite Z_range_succ. constructor; [apply IH|].
  destruct n; [constructor|]. rewrite Z_range_succ. constructor. lia.
Qed.

Lemma StronglySorted_filter_Z (f : Z -> bool) l :
  StronglySorted Z.lt l -> StronglySorted Z.lt (filter f l).
Proof.
  induction 1 as [|a l Hl IH Hall]; simpl; [constructor|].
  destruct (f a); [|exact IH]. constructor; [exact IH|].
  rewrite Forall_forall in *. intros y Hy. apply filter_In in Hy as [Hy _]. auto.
Qed.

Lemma Sorted_filter_Z (f : Z -> bool) l :
  Sorted Z.lt l -> Sorted Z.lt (filter f l).
Proof.
  intros H. apply StronglySorted_Sorted, StronglySorted_filter_Z.
  apply Sorted_StronglySorted; [intros a b c; lia|exact H].
Qed.

Lemma hosts_sorted net : Sorted Z.lt (hosts net).
Proof.
  unfold hosts. destruct (_ =? _ - 1); [apply Z_range_sorted|].
  destruct (_ =? _); [repeat constructor|].
  destruct (version net); apply Z_range_sorted.
Qed.

Lemma hosts_bounds net h :
  In h (hosts net) ->
  network_address net <= h <= broadcast_address net /\
  (prefixlen net <= max_prefixlen (version net) - 2 ->
   network_address net < h /\ (version net = IPv4 -> h < broadcast_address net)).
Proof.
  unfold hosts, broadcast_address.
  assert (0 <= num_addresses net) by (unfold num_addresses; apply Z.pow_nonneg; lia).
  destruct (prefixlen net =? max_prefixlen (version net) - 1) eqn:E1.
  - apply Z.eqb_eq in E1. rewrite In_Z_range. intros Hh.
    assert (num_addresses net = 2).
    { unfold num_addresses. rewrite E1. replace (_ - _) with 1 by lia. reflexivity. }
    split; [lia|]. intros. lia.
  - destruct (prefixlen net =? max_prefixlen (version net)) eqn:E2.
    + apply Z.eqb_eq in E2. intros [<-|[]].
      unfold num_addresses. rewrite E2, Z.sub_diag. simpl. split; [lia|]. intros. lia.
    + destruct (version net) eqn:Ev; rewrite In_Z_range; intros Hh; split; try lia;
        intros _; split; try lia; discriminate.
Qed.

Lemma fold_left_flat_map_Z (A B C : Type) (f : A -> C -> A) (g : B -> list C) l d :
  fold_left f (flat_map g l) d = fold_left (fun d x => fold_left f (g x) d) l d.
Proof.
  revert d; induction l as [|x l IH]; intros d; simpl; [reflexivity|].
  rewrite fold_left_app. apply IH.
Qed.

Lemma fold_left_map_Z (A B C : Type) (f : A -> C -> A) (h : B -> C) l d :
  fold_left f (map h l) d = fold_left (fun d x => f d (h x)) l d.
Proof. revert d; induction l; intros d; simpl; auto. Qed.

Lemma fold_left_ext_in_Z (A B : Type) (f g : A -> B -> A) l :
  (forall x d, In x l -> f d x = g d x) ->
  forall d, fold_left f l d = fold_left g l d.
Proof.
  induction l as [|x l IH]; intros H d; simpl; [reflexivity|].
  rewrite H by (left; reflexivity). apply IH. intros y e Hy. apply H. right. exact Hy.
Qed.

Lemma grid_cells_pairs base :
  grid_cells base =
  fold_left (fun d rc => dict_set (String.append base (str_int (fst rc * 16 + snd rc))) rc d)
    grid_pairs [].
Proof.
  unfold grid_cells, grid_pairs. rewrite fold_left_flat_map_Z.
  symmetry. apply fold_left_ext_in_Z. intros row d _. rewrite fold_left_map_Z. reflexivity.
Qed.

Lemma dict_get_filter_other k k' d :
  k <> k' ->
  dict_get k' (filter (fun p => negb (String.eqb (fst p) k)) d) = dict_get k' d.
Proof.
  intros Hne. induction d as [|[k0 v0] d IH]; simpl; [reflexivity|].
  destruct (String.eqb k0 k) eqn:E; simpl.
  - apply String.eqb_eq in E. subst k0.
    rewrite (proj2 (String.eqb_neq k k') Hne). exact IH.
  - rewrite IH. reflexivity.
Qed.

Lemma dict_get_set k v d k' :
  dict_get k' (dict_set k v d) = if String.eqb k k' then Some v else dict_get k' d.
Proof.
  unfold dict_set. simpl. destruct (String.eqb k k') eqn:E; [reflexivity|].
  apply String.eqb_neq in E. apply dict_get_filter_other, E.
Qed.

Lemma find_app_Z (A : Type) (f : A -> bool) l1 l2 :
  find f (l1 ++ l2) = match find f l1 with Some y => Some y | None => find f l2 end.
Proof. induction l1 as [|x l1 IH]; simpl; [reflexivity|]. destruct (f x); auto. Qed.

Lemma find_ext_in_Z (A : Type) (f g : A -> bool) l :
  (forall x, In x l -> f x = g x) -> find f l = find g l.
Proof.
  induction l as [|x l IH]; intros H; simpl; [reflexivity|].
  rewrite H by (left; reflexivity). destruct (g x); [reflexivity|].
  apply IH. intros y Hy. apply H. right. exact Hy.
Qed.

(** Assigning the keys of [l] in order: a lookup finds the last assignment
    of its key. *)
Lemma dict_get_fold (kf : Z * Z -> string) l : forall d key,
  dict_get key (fold_left (fun d rc => dict_set (kf rc) rc d) l d) =
  match find (fun rc => String.eqb (kf rc) key) (rev l) with
  | Some rc => Some rc
  | None => dict_get key d
  end.
Proof.
  induction l as [|x l IH]; intros d key; [reflexivity|].
  cbn [fold_left rev]. rewrite IH, find_app_Z. cbn [find]. rewrite dict_get_set.
  destruct (find _ (rev l)); [reflexivity|].
  destruct (String.eqb (kf x) key); reflexivity.
Qed.

Lemma grid_key net k :
  version net = IPv4 -> 0 <= network_address net < 2 ^ 32 -> 0 <= k < 256 ->
  String.append (base_ip_of net) (str_int k) =
  str_ipv4 (network_address net / 256 * 256 + k).
Proof.
  intros Hv Ha Hk. set (a := network_address net) in *.
  assert (Hy : 0 <= a / 256 * 256 + k < 2 ^ 32).
  { pose proof (Z.div_mod a 256 ltac:(lia)). pose proof (mod256_range a). lia. }
  rewrite (str_ipv4_shape _ Hy). cbv zeta.
  assert (Ed : (a / 256 * 256 + k) / 256 = a / 256).
  { rewrite Z.div_add_l by lia. rewrite (Z.div_small k) by lia. lia. }
  assert (Em : (a / 256 * 256 + k) mod 256 = k).
  { rewrite Z.add_comm, Z.mod_add by lia. apply Z.mod_small. lia. }
  rewrite Ed, Em.
  unfold base_ip_of, rsplit1_head, str_network_address, str_address. rewrite Hv.
  subst a. rewrite (split_str_ipv4 _ Ha). simpl.
  rewrite !append_assoc_str. cbn [String.append]. rewrite !append_assoc_str.
  reflexivity.
Qed.

Lemma In_grid_pairs rc : In rc grid_pairs <-> 0 <= fst rc < 16 /\ 0 <= snd rc < 16.
Proof.
  destruct rc as [r c]. unfold grid_pairs. rewrite in_flat_map. cbn [fst snd]. split.
  - intros [r' [Hr Hc]]. apply in_map_iff in Hc as [c' [E Hc]]. injection E as <- <-.
    rewrite In_Z_range in Hr, Hc. lia.
  - intros [Hr Hc]. exists r. rewrite In_Z_range. split; [lia|].
    apply in_map_iff. exists c. rewrite In_Z_range. split; [reflexivity|lia].
Qed.

Lemma find_none_Z (A : Type) (f : A -> bool) l :
  (forall x, In x l -> f x = false) -> find f l = None.
Proof.
  induction l as [|x l IH]; intros H; simpl; [reflexivity|].
  rewrite H by (left; reflexivity). apply IH. intros y Hy. apply H. right. exact Hy.
Qed.

(** Looking an address up in the cells [create_ip_grid] builds: exactly the
    addresses of the /24 of the network address have a cell, at row
    [last octet / 16] and column [last octet mod 16]. *)
Lemma grid_lookup net ip :
  version net = IPv4 -> 0 <= network_address net < 2 ^ 32 -> 0 <= ip < 2 ^ 32 ->
  dict_get (str_ipv4 ip) (grid_cells (base_ip_of net)) =
  if ip / 256 =? network_address net / 256
  then Some ((ip mod 256) / 16, ip mod 16) else None.
Proof.
  intros Hv Ha Hip. set (a := network_address net) in *.
  rewrite grid_cells_pairs, dict_get_fold. cbn [dict_get].
  rewrite (find_ext_in_Z _ _ (fun rc => a / 256 * 256 + (fst rc * 16 + snd rc) =? ip)).
  2:{ intros rc Hin. apply in_rev, In_grid_pairs in Hin.
      rewrite (grid_key net) by (exact Hv || lia). fold a.
      assert (0 <= a / 256 * 256 + (fst rc * 16 + snd rc) < 2 ^ 32).
      { pose proof (Z.div_mod a 256 ltac:(lia)). pose proof (mod256_range a). lia. }
      destruct (String.eqb _ _) eqn:E; symmetry.
      - apply String.eqb_eq, str_ipv4_inj in E; [|assumption|assumption].
        apply Z.eqb_eq. exact E.
      - apply Z.eqb_neq. intros E'. apply String.eqb_neq in E. congruence. }
  pose proof (Z.div_mod ip 256 ltac:(lia)) as Di.
  pose proof (Z.div_mod (ip mod 256) 16 ltac:(lia)) as D16.
  pose proof (mod256_range ip).
  pose proof (Z.mod_pos_bound (ip mod 256) 16 ltac:(lia)).
  assert (Em : (ip mod 256) mod 16 = ip mod 16).
  { rewrite (Z.div_mod ip 256 ltac:(lia)) at 2.
    replace (256 * (ip / 256) + ip mod 256) with (ip mod 256 + (ip / 256 * 16) * 16) by lia.
    rewrite Z.mod_add by lia. reflexivity. }
  destruct (ip / 256 =? a / 256) eqn:E.
  - apply Z.eqb_eq in E.
    destruct (find _ (rev grid_pairs)) as [[r c]|] eqn:F.
    + apply find_some in F as [Hin Hp]. apply in_rev, In_grid_pairs in Hin.
      apply Z.eqb_eq in Hp. cbn [fst snd] in *. rewrite <- Em.
      assert (Hr : r = ip mod 256 / 16) by lia. assert (Hc : c = (ip mod 256) mod 16) by lia.
      rewrite <- Hr, <- Hc. reflexivity.
    + exfalso.
      pose proof (find_none _ _ F ((ip mod 256) / 16, (ip mod 256) mod 16)) as Hn.
      assert (Hin : In ((ip mod 256) / 16, (ip mod 256) mod 16) (rev grid_pairs)).
      { apply in_rev, In_grid_pairs. cbn [fst snd].
        pose proof (Z.div_pos (ip mod 256) 16). lia. }
      specialize (Hn Hin). apply Z.eqb_neq in Hn. cbn [fst snd] in Hn. lia.
  - apply Z.eqb_neq in E. rewrite find_none_Z; [reflexivity|]. intros [r c] Hin.
    apply in_rev, In_grid_pairs in Hin. cbn [fst snd] in *. apply Z.eqb_neq. lia.
Qed.

(** ** Delivering the worker's signals to the window *)

Lemma set_progress_same w : set_progress w (w_progress w) (w_status w) = w.
Proof. destruct w; reflexivity. Qed.

Lemma set_progress_twice w p st q st' :
  set_progress (set_progress w p st) q st' = set_progress w q st'.
Proof. reflexivity. Qed.

Lemma update_ip_status_set_progress ip a w q st :
  update_ip_status ip a (set_progress w q st) = set_progress (update_ip_status ip a w) q st.
Proof. unfold update_ip_status. simpl. destruct (dict_get ip (w_ip_cells w)) as [[r c]|]; reflexivity. Qed.

Lemma fold_status_set_progress net probe ips : forall w q st,
  fold_status net probe ips (set_progress w q st) =
  set_progress (fold_status net probe ips w) q st.
Proof.
  unfold fold_status. induction ips as [|ip ips IH]; intros w q st; simpl; [reflexivity|].
  rewrite update_ip_status_set_progress. apply IH.
Qed.

Lemma scan_complete_set_progress l w q st :
  scan_complete l (set_progress w q st) = scan_complete l w.
Proof. reflexivity. Qed.

Lemma update_progress_nonzero c t w :
  t <> 0 -> exists q st, update_progress c t w = Some (set_progress w q st).
Proof.
  intros Ht. unfold update_progress. rewrite (proj2 (Z.eqb_neq t 0) Ht).
  do 2 eexists. reflexivity.
Qed.

Lemma deliver_all_app net evs1 evs2 w :
  deliver_all net (evs1 ++ evs2) w =
  match deliver_all net evs1 w with None => None | Some w' => deliver_all net evs2 w' end.
Proof.
  revert w; induction evs1 as [|e evs1 IH]; intros w; simpl; [reflexivity|].
  destruct (deliver net e w); [apply IH|reflexivity].
Qed.

(** The status/progress pairs of the loop never raise when the total is not
    zero, and leave the window as the status slots alone would, up to the
    progress bar and the status label. *)
Lemma deliver_status_pairs net probe t ips rest :
  t <> 0 -> forall p w, exists q st,
  deliver_all net (status_pairs probe t p ips ++ rest) w =
  deliver_all net rest (set_progress (fold_status net probe ips w) q st).
Proof.
  intros Ht. induction ips as [|ip ips IH]; intros p w.
  - exists (w_progress w), (w_status w). simpl. unfold fold_status. simpl.
    rewrite set_progress_same. reflexivity.
  - cbn [status_pairs app deliver_all deliver].
    destruct (update_progress_nonzero (p + 1) t
                (update_ip_status (str_host net ip) (probe ip) w) Ht) as [q1 [st1 E1]].
    rewrite E1.
    destruct (IH (p + 1) (set_progress (update_ip_status (str_host net ip) (probe ip) w) q1 st1))
      as [q [st E]]. exists q, st. rewrite E. f_equal.
    rewrite fold_status_set_progress, set_progress_twice. reflexivity.
Qed.

Lemma num_addresses_pos net : prefixlen net <= max_prefixlen (version net) -> 0 < num_addresses net.
Proof. intros H. unfold num_addresses. apply Z.pow_pos_nonneg; lia. Qed.

(** The whole signal stream of a sweep over a network, delivered to the
    window: no [ZeroDivisionError], and the window ends as [scan_complete]
    leaves it after the status slots of the folded results. *)
Lemma gui_flow probe sched calls net w :
  prefixlen net <= max_prefixlen (version net) ->
  deliver_all net (tr_events (run_network probe sched calls net)) w =
  Some (scan_complete (map (str_host net) (tr_active (run_network probe sched calls net)))
          (fold_status net probe
             (firstn (folded_count calls 0 (List.length (sched (hosts net)))) (sched (hosts net)))
             w)).
Proof.
  intros Hp. pose proof (num_addresses_pos net Hp) as Hn.
  rewrite run_network_spec. cbn [tr_events tr_active].
  destruct (deliver_status_pairs net probe (num_addresses net)
              (firstn (folded_count calls 0 (List.length (sched (hosts net)))) (sched (hosts net)))
              ((if is_running_at calls (List.length (sched (hosts net)))
                then [UpdateProgress (num_addresses net) (num_addresses net)] else [])
               ++ [ScanComplete (filter probe (firstn (folded_count calls 0
                    (List.length (sched (hosts net)))) (sched (hosts net))))])
              ltac:(lia) 0 w) as [q [st E]].
  rewrite E. destruct (is_running_at calls _).
  - cbn [app deliver_all deliver].
    destruct (update_progress_nonzero (num_addresses net) (num_addresses net)
                (set_progress (fold_status net probe
                   (firstn (folded_count calls 0 (List.length (sched (hosts net))))
                      (sched (hosts net))) w) q st) ltac:(lia)) as [q' [st' E']].
    rewrite E'. reflexivity.
  - reflexivity.
Qed.

Lemma ScanThread_run_valid probe sched calls t net :
  ip_network (st_network t) = Some net -> 0 < st_max_workers t ->
  ScanThread_run probe sched calls t = run_network probe sched calls net.
Proof.
  intros H Hw. unfold ScanThread_run. rewrite H.
  replace (st_max_workers t <=? 0) with false by (symmetry; apply Z.leb_gt; lia).
  reflexivity.
Qed.

Lemma ScanThread_init_run probe sched calls s workers net :
  ip_network s = Some net -> 0 < workers ->
  ScanThread_run probe sched calls (ScanThread_init s workers) = run_network probe sched calls net.
Proof. intros H Hw. apply ScanThread_run_valid; assumption. Qed.

Lemma start_scan_window_valid text workers w net :
  ip_network (strip text) = Some net ->
  start_scan_window text workers w =
  mk_window (mk_gui false true (Some (ScanThread_init (strip text) workers))
               (error_dialog (w_gui w)))
    true (grid_cells (base_ip_of net)) (fun _ _ => Unscanned) (w_active_ips w) 0
    (StatusScanning (strip text)).
Proof.
  intros H. unfold start_scan_window, create_ip_grid, start_scan. cbv zeta.
  rewrite H. reflexivity.
Qed.

Lemma fold_status_cons net probe ip ips w :
  fold_status net probe (ip :: ips) w =
  fold_status net probe ips (update_ip_status (str_host net ip) (probe ip) w).
Proof. reflexivity. Qed.


(** The colour of a cell after the status slots: that of the last folded
    address shown in it, when every folded address has its cell. *)
Lemma fold_status_cells net probe ips : forall w r c,
  (forall ip, In ip ips -> dict_get (str_host net ip) (w_ip_cells w) = Some (cell_of ip)) ->
  w_cells (fold_status net probe ips w) r c =
  match find (fun ip => (r =? fst (cell_of ip)) && (c =? snd (cell_of ip))) (rev ips) with
  | Some ip => if probe ip then ActiveCell else InactiveCell
  | None => w_cells w r c
  end.
Proof.
  induction ips as [|ip ips IH]; intros w r c H; [reflexivity|].
  rewrite fold_status_cons. cbn [rev]. rewrite IH.
  2:{ intros ip' Hin. unfold update_ip_status. rewrite (H ip (or_introl eq_refl)).
      unfold cell_of. cbn [w_ip_cells]. apply H. right. exact Hin. }
  rewrite find_app_Z. destruct (find _ (rev ips)); [reflexivity|].
  unfold update_ip_status. rewrite (H ip (or_introl eq_refl)). unfold cell_of. cbn.
  destruct ((r =? (ip mod 256) / 16) && (c =? ip mod 16)); reflexivity.
Qed.

Lemma fold_status_active net probe ips : forall w,
  (forall ip, In ip ips -> dict_get (str_host net ip) (w_ip_cells w) <> None) ->
  w_active_ips (fold_status net probe ips w) =
  w_active_ips w ++ map (str_host net) (filter probe ips).
Proof.
  induction ips as [|ip ips IH]; intros w H; [simpl; rewrite app_nil_r; reflexivity|].
  rewrite fold_status_cons, IH.
  2:{ intros ip' Hin. unfold update_ip_status.
      destruct (dict_get (str_host net ip) (w_ip_cells w)) as [[r c]|];
      apply H; right; exact Hin. }
  unfold update_ip_status.
  destruct (dict_get (str_host net ip) (w_ip_cells w)) as [[r c]|] eqn:E.
  - cbn [w_active_ips filter]. destruct (probe ip); [|reflexivity].
    rewrite <- app_assoc. reflexivity.
  - exfalso. exact (H ip (or_introl eq_refl) E).
Qed.

(** A host of an IPv4 network prints as [str_ipv4]. *)
Lemma str_host_ipv4 net ip : version net = IPv4 -> str_host net ip = str_ipv4 ip.
Proof. intros Hv. unfold str_host, str_address. rewrite Hv. reflexivity. Qed.

Lemma div_same_block a h d e :
  0 < d -> 0 < e -> a mod d = 0 -> a <= h <= a + d - 1 -> h / (d * e) = a / (d * e).
Proof.
  intros Hd He Hm Hh. rewrite <- !Z.div_div by lia. f_equal.
  pose proof (Z.div_mod a d ltac:(lia)) as Ea. rewrite Hm, Z.add_0_r in Ea.
  symmetry. apply (Z.div_unique h d (a / d) (h - a)); [left; lia|lia].
Qed.

(** For a prefix of 24 or more, every host lies in the /24 of the network
    address. *)
Lemma hosts_same_block s net h :
  ip_network s = Some net -> version net = IPv4 -> 24 <= prefixlen net -> In h (hosts net) ->
  h / 256 = network_address net / 256 /\ 0 <= h < 2 ^ 32.
Proof.
  intros Hs Hv Hp Hh. destruct (ip_network_valid s net Hs) as [Hp32 [Ha Hm]].
  rewrite Hv in Hp32, Ha. cbn [max_prefixlen] in Hp32, Ha.
  destruct (hosts_bounds net h Hh) as [[H1 H2] _]. unfold broadcast_address in H2.
  assert (E : num_addresses net * 2 ^ (prefixlen net - 24) = 256).
  { unfold num_addresses. rewrite Hv. cbn [max_prefixlen]. rewrite <- Z.pow_add_r by lia.
    replace (32 - prefixlen net + (prefixlen net - 24)) with 8 by lia. reflexivity. }
  pose proof (num_addresses_pos net ltac:(rewrite Hv; cbn; lia)).
  assert (Hb : h / 256 = network_address net / 256).
  { rewrite <- E. apply div_same_block; [lia| apply Z.pow_pos_nonneg; lia | exact Hm | lia]. }
  split; [exact Hb|].
  pose proof (Z.div_mod h 256 ltac:(lia)). pose proof (Z.mod_pos_bound h 256 ltac:(lia)).
  pose proof (Z.div_mod (network_address net) 256 ltac:(lia)).
  pose proof (Z.mod_pos_bound (network_address net) 256 ltac:(lia)).
  lia.
Qed.

Lemma hosts_length net :
  0 <= prefixlen net <= max_prefixlen (version net) ->
  Z.of_nat (List.length (hosts net)) =
  if prefixlen net <=? max_prefixlen (version net) - 2
  then num_addresses net - match version net with IPv4 => 2 | IPv6 => 1 end
  else num_addresses net.
Proof.
  intros Hp. destruct (Z.leb_spec (prefixlen net) (max_prefixlen (version net) - 2)).
  - apply hosts_length_inner. lia.
  - unfold hosts, broadcast_address.
    destruct (prefixlen net =? max_prefixlen (version net) - 1) eqn:E1.
    + apply Z.eqb_eq in E1. rewrite Z_range_length. unfold num_addresses. rewrite E1.
      replace (max_prefixlen (version net) - (max_prefixlen (version net) - 1)) with 1 by lia.
      simpl. lia.
    + destruct (prefixlen net =? max_prefixlen (version net)) eqn:E2.
      * apply Z.eqb_eq in E2. unfold num_addresses. rewrite E2, Z.sub_diag. reflexivity.
      * apply Z.eqb_neq in E1, E2. lia.
Qed.

Lemma mod256_mod16 ip : (ip mod 256) mod 16 = ip mod 16.
Proof.
  rewrite (Z.div_mod ip 256 ltac:(lia)) at 2.
  replace (256 * (ip / 256) + ip mod 256) with (ip mod 256 + (ip / 256 * 16) * 16) by lia.
  rewrite Z.mod_add by lia. reflexivity.
Qed.

(** Two addresses of one /24 in the same cell are the same address. *)
Lemma cell_of_inj ip h :
  ip / 256 = h / 256 -> cell_of ip = cell_of h -> ip = h.
Proof.
  unfold cell_of. intros Hb Hc. injection Hc as Hr Hc.
  pose proof (Z.div_mod ip 256 ltac:(lia)). pose proof (Z.div_mod h 256 ltac:(lia)).
  pose proof (Z.div_mod (ip mod 256) 16 ltac:(lia)).
  pose proof (Z.div_mod (h mod 256) 16 ltac:(lia)).
  rewrite !mod256_mod16 in *. lia.
Qed.

Lemma cell_of_range ip : 0 <= fst (cell_of ip) < 16 /\ 0 <= snd (cell_of ip) < 16.
Proof.
  unfold cell_of; cbn [fst snd]. pose proof (mod256_range ip).
  pose proof (Z.mod_pos_bound ip 16 ltac:(lia)).
  split; [split; [apply Z.div_pos; lia| apply Z.div_lt_upper_bound; lia]|lia].
Qed.

(** The cells of the grid built for a valid range with a prefix of 24 or
    more: every host has the cell [cell_of]. *)
Lemma grid_host_cell s net h :
  ip_network s = Some net -> version net = IPv4 -> 24 <= prefixlen net -> In h (hosts net) ->
  dict_get (str_ipv4 h) (grid_cells (base_ip_of net)) = Some (cell_of h).
Proof.
  intros Hs Hv Hp Hh. destruct (hosts_same_block s net h Hs Hv Hp Hh) as [Hb Hr].
  destruct (ip_network_valid s net Hs) as [_ [Ha _]]. rewrite Hv in Ha.
  rewrite (grid_lookup net h Hv Ha Hr), Hb, Z.eqb_refl. reflexivity.
Qed.

Lemma status_pairs_length probe t p l :
  List.length (status_pairs probe t p l) = (2 * List.length l)%nat.
Proof. revert p; induction l as [|x l IH]; intros p; simpl; [reflexivity|]. rewrite IH. lia. Qed.

Lemma firstn_status_pairs probe t l : forall j p,
  firstn (2 * j) (status_pairs probe t p l) = status_pairs probe t p (firstn j l).
Proof.
  induction l as [|x l IH]; intros j p.
  - rewrite !firstn_nil. reflexivity.
  - destruct j as [|j]; [reflexivity|].
    replace (2 * S j)%nat with (S (S (2 * j))) by lia. cbn [firstn status_pairs].
    rewrite IH. reflexivity.
Qed.












(** * Claims *)

Module Claims.

(** The two host addresses of [10.0.0.0/30]: [10.0.0.1] and [10.0.0.2]. *)
Definition h1 : Z := 167772161.
Definition h2 : Z := 167772162.

Definition all_dead : Z -> bool := fun _ => false.
Definition in_order : list Z -> list Z := fun l => l.

Definition gui0 : gui := mk_gui true false None false.

Lemma in_order_perm : forall l, Permutation (in_order l) l.
Proof. intros l. apply Permutation_refl. Qed.

(** C1, refuted: on [10.0.0.0/30], uncancelled, [ScanThread.run] folds
    the two hosts ([processed_ips] ends at 2) while [total_ips] is
    [num_addresses] = 4: the progress signals read 1/4, 2/4 and only the
    patch after the loop sends 4/4; two results are reported, not four. *)
Theorem C1_processed_short_of_total :
  run all_dead in_order [] "10.0.0.0/30"%string =
  mk_trace [UpdateIpStatus h1 false; UpdateProgress 1 4;
            UpdateIpStatus h2 false; UpdateProgress 2 4;
            UpdateProgress 4 4; ScanComplete []]
           [] 2 [h1; h2].
Proof. vm_compute. reflexivity. Qed.

(** C2, refuted: the total the sweep uses is [num_addresses], which counts
    the network and broadcast addresses: 4 for a /30 (2 hosts) and 256 for a
    /24 (254 hosts). *)
Theorem C2_total_is_num_addresses :
  option_map num_addresses (ip_network "10.0.0.0/30"%string) = Some 4 /\
  option_map (fun n => List.length (hosts n)) (ip_network "10.0.0.0/30"%string) = Some 2%nat /\
  option_map num_addresses (ip_network "192.168.1.0/24"%string) = Some 256 /\
  option_map (fun n => List.length (hosts n)) (ip_network "192.168.1.0/24"%string) = Some 254%nat.
Proof. vm_compute. repeat split. Qed.







(** C5, refuted: [ping] has no distinct error for a malformed
    address: when the ping command rejects ["not-an-ip"] with exit code 2,
    [ping] returns [False] exactly as for an unreachable host. *)
Lemma C5_malformed_address_is_false :
  ping (fun _ => Completed 2) "not-an-ip"%string = Ret false.
Proof. reflexivity. Qed.

(** C5, as the code does it: whatever the address, [ping] answers [True] exactly when
    the ping command exits with 0; a non-zero exit, [TimeoutExpired] and
    every other [Exception] give [False]; the only thing that propagates is
    a [BaseException] that is not an [Exception]. *)
Theorem C5_ping_normalises_failures subprocess_run ip :
  (ping subprocess_run ip = Ret true <-> subprocess_run ip = Completed 0) /\
  (forall e, ping subprocess_run ip = Raise e ->
     exists name, subprocess_run ip = RaisedBaseException name /\
                  e = BaseExceptionRaised name).
Proof.
  unfold ping. split.
  - destruct (subprocess_run ip) as [rc| | |]; split; intros H; try discriminate.
    + injection H as H. apply Z.eqb_eq in H. now subst.
    + injection H as ->. reflexivity.
  - intros e. destruct (subprocess_run ip) as [rc| | |name]; intros H; try discriminate.
    injection H as <-. eauto.
Qed.

Lemma C5_ping_normalises_failures_witness :
  ping (fun _ => RaisedException "PermissionError"%string) "10.0.0.1"%string <> Ret true.
Proof.
  intros H.
  destruct (C5_ping_normalises_failures (fun _ => RaisedException "PermissionError"%string)
              "10.0.0.1"%string) as [[Ht _] _].
  specialize (Ht H). discriminate.
Defined.

(** C6: a malformed range starts nothing.  [scan_network] raises
    [ValueError] before any probe is submitted, whatever [max_workers];
    [start_scan] only opens the error box (no thread, buttons unchanged);
    and [ScanThread.run] on such a text, whatever the pool size, emits no
    signal and submits no probe. *)
Theorem C6_invalid_range_rejected probe sched calls s text workers g
  (Hs : ip_network s = None) (Ht : ip_network (strip text) = None) :
  (forall max_workers, scan_network probe s max_workers = mk_batch (Raise ValueError) []) /\
  start_scan text workers g =
    mk_gui (scan_button_enabled g) (stop_button_enabled g) (scan_thread g) true /\
  run probe sched calls s = no_trace /\
  (forall max_workers,
     ScanThread_run probe sched calls (ScanThread_init s max_workers) = no_trace).
Proof.
  unfold scan_network, start_scan, run, ScanThread_run. cbn [st_network ScanThread_init].
  rewrite Hs, Ht. repeat split; reflexivity.
Qed.

Lemma C6_invalid_range_rejected_witness :
  ip_network "not-an-ip"%string = None /\
  start_scan "not-an-ip"%string 50 gui0 = mk_gui true false None true.
Proof.
  split; [vm_compute; reflexivity|].
  destruct (C6_invalid_range_rejected all_dead in_order [] "not-an-ip"%string
              "not-an-ip"%string 50 gui0
              ltac:(vm_compute; reflexivity) ltac:(vm_compute; reflexivity))
    as [_ [H _]].
  exact H.
Defined.





(** C9: [stop] is idempotent, and a second [stop()] call after the first
    leaves the worker's signals and final state unchanged, for every thread
    (any range text, any pool size). *)
Theorem C9_stop_idempotent (th : ScanThread) probe sched t1 t2 l
  (Ht : (t1 <= t2)%nat) :
  stop (stop th) = stop th /\
  ScanThread_run probe sched (t1 :: t2 :: l) th = ScanThread_run probe sched (t1 :: l) th.
Proof.
  split; [reflexivity|].
  apply ScanThread_run_ext. intros i. apply is_running_at_later_call. exact Ht.
Qed.

Lemma C9_stop_idempotent_witness :
  ScanThread_run all_dead in_order [1%nat; 1%nat] (ScanThread_init "10.0.0.0/30"%string 50) =
  ScanThread_run all_dead in_order [1%nat] (ScanThread_init "10.0.0.0/30"%string 50).
Proof.
  destruct (C9_stop_idempotent (ScanThread_init "10.0.0.0/30"%string 50)
              all_dead in_order 1 1 [] ltac:(lia)) as [_ H].
  exact H.
Defined.

(** C10: for every sweep of a thread over a valid range (IPv4 or IPv6)
    with a pool of at least one worker, cancelled or not, the live list has
    at most [total_ips] entries, none twice, each a host of the range. *)
Theorem C10_live_list_bounded probe sched calls s workers net
  (Hs : ip_network s = Some net) (Hw : 0 < workers)
  (Hsched : forall l, Permutation (sched l) l) :
  let a := tr_active (ScanThread_run probe sched calls (ScanThread_init s workers)) in
  Z.of_nat (List.length a) <= num_addresses net /\
  NoDup a /\
  (forall x, In x a -> In x (hosts net)).
Proof.
  cbv zeta. rewrite (ScanThread_init_run _ _ _ _ _ _ Hs Hw), run_network_spec. simpl.
  set (k := folded_count calls 0 _).
  pose proof (Hsched (hosts net)) as Hp.
  destruct (ip_network_valid s net Hs) as [Hpl _].
  repeat split.
  - pose proof (hosts_length_le net Hpl) as Hl.
    pose proof (filter_length_le probe (firstn k (sched (hosts net)))) as Hf.
    pose proof (length_firstn k (sched (hosts net))) as Hk.
    rewrite (Permutation_length Hp) in Hk. lia.
  - apply NoDup_filter, NoDup_firstn_of.
    apply (Permutation_NoDup (Permutation_sym Hp)), hosts_NoDup.
  - intros x Hx. apply filter_In in Hx as [Hx _].
    apply (Permutation_in _ Hp). rewrite <- (firstn_skipn k (sched (hosts net))).
    apply in_or_app. left. exact Hx.
Qed.

Lemma C10_live_list_bounded_witness :
  ip_network "2001:db8::/125"%string =
    Some (mk_net IPv6 42540766411282592856903984951653826560 125 None) /\
  NoDup (tr_active (ScanThread_run (fun _ => true) in_order [4%nat]
                      (ScanThread_init "2001:db8::/125"%string 200))).
Proof.
  split; [vm_compute; reflexivity|].
  destruct (C10_live_list_bounded (fun _ => true) in_order [4%nat] "2001:db8::/125"%string 200
              (mk_net IPv6 42540766411282592856903984951653826560 125 None)
              ltac:(vm_compute; reflexivity) ltac:(lia) in_order_perm)
    as [_ [H _]].
  exact H.
Defined.

End Claims.

Module Extras.

(** Inputs of the witnesses. *)
Definition completion_in_order : list Z -> list Z := fun l => l.

Lemma completion_in_order_perm : forall l, Permutation (completion_in_order l) l.
Proof. intros l. apply Permutation_refl. Qed.

(** A window before any scan, and one still holding the live list of an
    earlier scan. *)
Definition win0 : window :=
  mk_window (mk_gui true false None false) false [] (fun _ _ => Unscanned) [] 0 StatusReady.

Definition win_old : window :=
  mk_window (mk_gui true false None false) false [] (fun _ _ => Unscanned)
    ["10.0.0.9"%string] 100 StatusReady.

(** [ip_network("2001:db8::/120")] and [ip_network("2001:db8::/126")]. *)
Definition net6_120 : network := mk_net IPv6 42540766411282592856903984951653826560 120 None.

(** X1: a range [ip_network] accepts, IPv4 or IPv6, has a prefix in
    [0..max_prefixlen] (32 or 128), a network address of that many bits,
    and no host bit set (strict mode). *)
Theorem X1_ip_network_aligned s net
  (Hs : ip_network s = Some net) :
  0 <= prefixlen net <= max_prefixlen (version net) /\
  0 <= network_address net < 2 ^ max_prefixlen (version net) /\
  network_address net mod num_addresses net = 0.
Proof. exact (ip_network_valid s net Hs). Qed.

Lemma X1_ip_network_aligned_witness :
  ip_network "2001:db8::/120"%string = Some net6_120 /\
  network_address net6_120 mod num_addresses net6_120 = 0.
Proof.
  split; [vm_compute; reflexivity|].
  exact (proj2 (proj2 (X1_ip_network_aligned "2001:db8::/120"%string net6_120
                         ltac:(vm_compute; reflexivity)))).
Defined.


(** X3: [hosts()] yields [num_addresses - 2] addresses for an IPv4 prefix
    of 30 or less, [num_addresses - 1] for an IPv6 prefix of 126 or less,
    and every address of a range with one of the two longest prefixes. *)
Theorem X3_hosts_count net
  (Hp : 0 <= prefixlen net <= max_prefixlen (version net)) :
  Z.of_nat (List.length (hosts net)) =
  if prefixlen net <=? max_prefixlen (version net) - 2
  then num_addresses net - match version net with IPv4 => 2 | IPv6 => 1 end
  else num_addresses net.
Proof. exact (hosts_length net Hp). Qed.

Lemma X3_hosts_count_witness :
  0 <= prefixlen net6_120 <= max_prefixlen (version net6_120) /\
  Z.of_nat (List.length (hosts net6_120)) = 255.
Proof.
  split; [vm_compute; split; discriminate|].
  rewrite (X3_hosts_count net6_120 ltac:(vm_compute; split; discriminate)).
  reflexivity.
Defined.

(** X4: [str(ip)] of a 32-bit address is parsed back to the same address
    by the address parser of [ip_network]; so distinct addresses have
    distinct texts. *)
Theorem X4_str_ipv4_round_trip x
  (Hx : 0 <= x < 2 ^ 32) :
  ip_int_from_string (str_ipv4 x) = Some x /\
  (forall y, 0 <= y < 2 ^ 32 -> str_ipv4 y = str_ipv4 x -> y = x).
Proof.
  split; [exact (ip_int_from_str_ipv4 x Hx)|].
  intros y Hy E. exact (str_ipv4_inj y x Hy Hx E).
Qed.

Lemma X4_str_ipv4_round_trip_witness :
  0 <= 3232235777 < 2 ^ 32 /\ ip_int_from_string (str_ipv4 3232235777) = Some 3232235777.
Proof.
  split; [lia|].
  exact (proj1 (X4_str_ipv4_round_trip 3232235777 ltac:(lia))).
Defined.

(** X5: with a pool of at least one worker, [scan_network] submits every
    host and returns the live hosts in ascending order, each once: exactly
    the hosts whose probe answered [True]. *)
Theorem X5_scan_network_sorted_live probe s max_workers net
  (Hs : ip_network s = Some net) (Hmw : 0 < max_workers) :
  exists live, scan_network probe s max_workers = mk_batch (Ret live) (hosts net) /\
    Sorted Z.lt live /\
    (forall x, In x live <-> In x (hosts net) /\ probe x = true).
Proof.
  exists (filter probe (hosts net)).
  split; [exact (scan_network_spec probe s max_workers net Hs Hmw)|].
  split; [apply Sorted_filter_Z, hosts_sorted|].
  intros x. apply filter_In.
Qed.

Lemma X5_scan_network_sorted_live_witness :
  ip_network "10.0.0.0/29"%string = Some (mk_network 167772160 29) /\
  exists live, scan_network (fun ip => (ip =? 167772165) || (ip =? 167772162))
                 "10.0.0.0/29"%string 50 = mk_batch (Ret live) (hosts (mk_network 167772160 29)).
Proof.
  split; [vm_compute; reflexivity|].
  destruct (X5_scan_network_sorted_live (fun ip => (ip =? 167772165) || (ip =? 167772162))
              "10.0.0.0/29"%string 50 (mk_network 167772160 29) ltac:(vm_compute; reflexivity)
              ltac:(lia))
    as [live [H _]].
  exists live. exact H.
Defined.

(** X6: after [create_ip_grid] on a valid IPv4 range, [ip in self.ip_cells]
    holds exactly for the addresses of the /24 of the network address,
    whatever the prefix, and the cell of such an address is at row
    [last octet // 16], column [last octet % 16]. *)
Theorem X6_grid_lookup s w net ip
  (Hs : ip_network s = Some net) (Hv : version net = IPv4) (Hip : 0 <= ip < 2 ^ 32) :
  dict_get (str_ipv4 ip) (w_ip_cells (create_ip_grid s w)) =
  if ip / 256 =? network_address net / 256 then Some (cell_of ip) else None.
Proof.
  destruct (ip_network_valid s net Hs) as [_ [Ha _]].
  rewrite Hv in Ha. cbn [max_prefixlen] in Ha.
  unfold create_ip_grid. rewrite Hs. cbn [w_ip_cells].
  exact (grid_lookup net ip Hv Ha Hip).
Qed.

Lemma X6_grid_lookup_witness :
  ip_network "10.0.0.0/22"%string = Some (mk_network 167772160 22) /\
  dict_get (str_ipv4 167772418) (w_ip_cells (create_ip_grid "10.0.0.0/22"%string win0)) = None.
Proof.
  split; [vm_compute; reflexivity|].
  rewrite (X6_grid_lookup "10.0.0.0/22"%string win0 (mk_network 167772160 22) 167772418
             ltac:(vm_compute; reflexivity) eq_refl ltac:(lia)).
  reflexivity.
Defined.

(** X7: for an IPv4 range with a prefix of 24 or more, every host gets a
    cell of the grid, at [cell_of]. *)
Theorem X7_host_has_cell s w net h
  (Hs : ip_network s = Some net) (Hv : version net = IPv4) (Hp : 24 <= prefixlen net)
  (Hh : In h (hosts net)) :
  dict_get (str_ipv4 h) (w_ip_cells (create_ip_grid s w)) = Some (cell_of h).
Proof.
  unfold create_ip_grid. rewrite Hs. cbn [w_ip_cells].
  exact (grid_host_cell s net h Hs Hv Hp Hh).
Qed.

Lemma X7_host_has_cell_witness :
  ip_network "10.0.0.0/28"%string = Some (mk_network 167772160 28) /\
  dict_get (str_ipv4 167772174) (w_ip_cells (create_ip_grid "10.0.0.0/28"%string win0)) =
  Some (0, 14).
Proof.
  split; [vm_compute; reflexivity|].
  rewrite (X7_host_has_cell "10.0.0.0/28"%string win0 (mk_network 167772160 28) 167772174
             ltac:(vm_compute; reflexivity) eq_refl ltac:(vm_compute; discriminate)
             ltac:(vm_compute; tauto)).
  reflexivity.
Defined.

(** X8: for an address outside the /24 of the network address of an IPv4
    range (a host of a range wider than /24, say), [update_ip_status]
    changes nothing: no cell is coloured and the address is not added to
    [self.active_ips]. *)
Theorem X8_outside_block_ignored s w net ip is_active
  (Hs : ip_network s = Some net) (Hv : version net = IPv4) (Hip : 0 <= ip < 2 ^ 32)
  (Hb : ip / 256 <> network_address net / 256) :
  update_ip_status (str_ipv4 ip) is_active (create_ip_grid s w) = create_ip_grid s w.
Proof.
  destruct (ip_network_valid s net Hs) as [_ [Ha _]].
  rewrite Hv in Ha. cbn [max_prefixlen] in Ha.
  unfold update_ip_status. unfold create_ip_grid at 1. rewrite Hs. cbn [w_ip_cells].
  rewrite (grid_lookup net ip Hv Ha Hip). rewrite (proj2 (Z.eqb_neq _ _) Hb). reflexivity.
Qed.

Lemma X8_outside_block_ignored_witness :
  ip_network "10.0.0.0/23"%string = Some (mk_network 167772160 23) /\
  existsb (Z.eqb 167772421) (hosts (mk_network 167772160 23)) = true /\
  update_ip_status (str_ipv4 167772421) true (create_ip_grid "10.0.0.0/23"%string win0) =
  create_ip_grid "10.0.0.0/23"%string win0.
Proof.
  split; [vm_compute; reflexivity|]. split; [vm_compute; reflexivity|].
  exact (X8_outside_block_ignored "10.0.0.0/23"%string win0 (mk_network 167772160 23)
           167772421 true ltac:(vm_compute; reflexivity) eq_refl ltac:(lia)
           ltac:(vm_compute; discriminate)).
Defined.



(** X10: at the end of a scan of an IPv4 range with a prefix of 24 or more,
    the cell of each host shows the result of its probe (red for active,
    green for inactive) if the worker folded that result before the stop,
    and is still unscanned otherwise. *)
Theorem X10_scan_cells_show_results probe sched calls text workers w net h
  (Ht : ip_network (strip text) = Some net) (Hv : version net = IPv4) (Hp : 24 <= prefixlen net)
  (Hw : 0 < workers) (Hsched : forall l, Permutation (sched l) l) (Hh : In h (hosts net)) :
  let order := sched (hosts net) in
  let folded := firstn (folded_count calls 0 (List.length order)) order in
  exists w', deliver_all net (tr_events (ScanThread_run probe sched calls
                                           (ScanThread_init (strip text) workers)))
               (start_scan_window text workers w) = Some w' /\
    w_cells w' (fst (cell_of h)) (snd (cell_of h)) =
    if in_dec Z.eq_dec h folded
    then (if probe h then ActiveCell else InactiveCell) else Unscanned.
Proof.
  cbv zeta. rewrite (ScanThread_init_run probe sched calls (strip text) workers net Ht Hw).
  destruct (ip_network_valid _ net Ht) as [Hpl _].
  rewrite (gui_flow probe sched calls net _ ltac:(lia)).
  eexists. split; [reflexivity|].
  rewrite (start_scan_window_valid text workers w net Ht).
  set (F := firstn _ (sched (hosts net))).
  assert (HF : forall ip, In ip F -> In ip (hosts net)).
  { intros ip Hin. apply (Permutation_in _ (Hsched (hosts net))).
    unfold F in Hin. rewrite <- (firstn_skipn (folded_count calls 0 (List.length (sched (hosts net))))
                                   (sched (hosts net))).
    apply in_or_app. left. exact Hin. }
  unfold scan_complete. cbn [w_cells].
  rewrite fold_status_cells.
  2:{ intros ip Hin. cbn [w_ip_cells]. rewrite (str_host_ipv4 net ip Hv).
      exact (grid_host_cell _ net ip Ht Hv Hp (HF ip Hin)). }
  destruct (hosts_same_block _ net h Ht Hv Hp Hh) as [Hbh _].
  destruct (find _ (rev F)) as [ip|] eqn:E.
  - apply find_some in E as [Hin Hc]. apply in_rev in Hin.
    apply andb_prop in Hc as [Hr Hc]. apply Z.eqb_eq in Hr, Hc.
    destruct (hosts_same_block _ net ip Ht Hv Hp (HF ip Hin)) as [Hbi _].
    assert (ip = h).
    { apply cell_of_inj; [congruence|]. destruct (cell_of ip), (cell_of h).
      cbn [fst snd] in *. congruence. }
    subst ip. destruct (in_dec Z.eq_dec h F); [reflexivity|contradiction].
  - destruct (in_dec Z.eq_dec h F) as [Hin|]; [|reflexivity].
    exfalso. apply in_rev in Hin. pose proof (find_none _ _ E h Hin) as Hn.
    cbn beta in Hn. rewrite !Z.eqb_refl in Hn. discriminate.
Qed.

Lemma X10_scan_cells_show_results_witness :
  ip_network (strip "10.0.0.0/30"%string) = Some (mk_network 167772160 30) /\
  existsb (Z.eqb 167772162) (hosts (mk_network 167772160 30)) = true /\
  exists w', deliver_all (mk_network 167772160 30)
               (tr_events (ScanThread_run (fun ip => ip =? 167772162) completion_in_order [1%nat]
                             (ScanThread_init (strip "10.0.0.0/30"%string) 50)))
               (start_scan_window "10.0.0.0/30"%string 50 win0) = Some w' /\
    w_cells w' 0 2 = Unscanned.
Proof.
  split; [vm_compute; reflexivity|]. split; [vm_compute; reflexivity|].
  exact (X10_scan_cells_show_results (fun ip => ip =? 167772162) completion_in_order [1%nat]
           "10.0.0.0/30"%string 50 win0 (mk_network 167772160 30) 167772162
           ltac:(vm_compute; reflexivity) eq_refl ltac:(vm_compute; discriminate) ltac:(lia)
           completion_in_order_perm ltac:(vm_compute; tauto)).
Defined.

(** X11: [stop_scan] is idempotent, and it changes the window only when a
    scan thread exists and is running: then it disables Stop, clears the
    thread's [is_running] flag, sets the status label to
    ["正在停止扫描..."], and touches nothing else. *)
Theorem X11_stop_scan_idempotent w :
  stop_scan (stop_scan w) = stop_scan w /\
  (stop_scan w = w \/
   (w_thread_running w = true /\
    exists t, scan_thread (w_gui w) = Some t /\
      stop_scan w = mk_window
        (mk_gui (scan_button_enabled (w_gui w)) false (Some (stop t)) (error_dialog (w_gui w)))
        (w_thread_running w) (w_ip_cells w) (w_cells w) (w_active_ips w) (w_progress w)
        StatusStopping)).
Proof.
  destruct w as [[sb stb [t|] ed] running cells cs act prog st];
    destruct running; cbn; auto.
  split; [reflexivity|]. right. split; [reflexivity|]. exists t. split; reflexivity.
Qed.

(** X12: a new scan does not clear [self.active_ips]: while the results
    come in, the list holds the addresses of the previous scan followed by
    the live hosts folded so far, until [scan_complete] replaces it (for an
    IPv4 prefix of 24 or more, where every host has a cell). *)
Theorem X12_active_ips_carried_over probe sched calls text workers w net j
  (Ht : ip_network (strip text) = Some net) (Hv : version net = IPv4) (Hp : 24 <= prefixlen net)
  (Hw : 0 < workers) (Hsched : forall l, Permutation (sched l) l)
  (Hj : (j <= folded_count calls 0 (List.length (sched (hosts net))))%nat) :
  exists w', deliver_all net (firstn (2 * j) (tr_events (ScanThread_run probe sched calls
                                                          (ScanThread_init (strip text) workers))))
               (start_scan_window text workers w) = Some w' /\
    w_active_ips w' = w_active_ips w ++ map str_ipv4 (filter probe (firstn j (sched (hosts net)))).
Proof.
  rewrite (ScanThread_init_run probe sched calls (strip text) workers net Ht Hw).
  rewrite run_network_spec. cbn [tr_events].
  set (k := folded_count calls 0 _) in *.
  rewrite firstn_app, status_pairs_length, length_firstn.
  assert (Hk : (k <= List.length (sched (hosts net)))%nat).
  { unfold k. apply folded_count_le. }
  replace (2 * j - 2 * Init.Nat.min k (List.length (sched (hosts net))))%nat with 0%nat by lia.
  rewrite firstn_O, app_nil_r, firstn_status_pairs, firstn_firstn.
  replace (Init.Nat.min j k) with j by lia.
  pose proof (ip_network_valid _ net Ht) as [Hpl _].
  destruct (deliver_status_pairs net probe (num_addresses net) (firstn j (sched (hosts net))) []
              ltac:(pose proof (num_addresses_pos net ltac:(lia)); lia) 0
              (start_scan_window text workers w)) as [q [st E]].
  rewrite app_nil_r in E. rewrite E. eexists. split; [reflexivity|].
  cbn [w_active_ips set_progress].
  assert (Hm : map (str_host net) (filter probe (firstn j (sched (hosts net)))) =
               map str_ipv4 (filter probe (firstn j (sched (hosts net))))).
  { apply map_ext. intros ip. apply str_host_ipv4, Hv. }
  rewrite fold_status_active.
  - rewrite (start_scan_window_valid text workers w net Ht), Hm. reflexivity.
  - intros ip Hin. rewrite (start_scan_window_valid text workers w net Ht). cbn [w_ip_cells].
    assert (In ip (hosts net)).
    { apply (Permutation_in _ (Hsched (hosts net))).
      rewrite <- (firstn_skipn j (sched (hosts net))). apply in_or_app. left. exact Hin. }
    rewrite (str_host_ipv4 net ip Hv), (grid_host_cell _ net ip Ht Hv Hp H). discriminate.
Qed.

Lemma X12_active_ips_carried_over_witness :
  ip_network (strip "10.0.0.0/30"%string) = Some (mk_network 167772160 30) /\
  exists w', deliver_all (mk_network 167772160 30)
               (firstn 2 (tr_events (ScanThread_run (fun _ => true) completion_in_order []
                                       (ScanThread_init (strip "10.0.0.0/30"%string) 50))))
               (start_scan_window "10.0.0.0/30"%string 50 win_old) = Some w' /\
    w_active_ips w' = ["10.0.0.9"%string; str_ipv4 167772161].
Proof.
  split; [vm_compute; reflexivity|].
  destruct (X12_active_ips_carried_over (fun _ => true) completion_in_order [] "10.0.0.0/30"%string 50
              win_old (mk_network 167772160 30) 1 ltac:(vm_compute; reflexivity) eq_refl
              ltac:(vm_compute; discriminate) ltac:(lia) completion_in_order_perm
              ltac:(vm_compute; lia))
    as [w' [H1 H2]].
  exists w'. split; [exact H1|]. rewrite H2. reflexivity.
Defined.





End Extras.
